(** * Tool dispatch and progress notification of the Gemini MCP server

    A shallow embedding of [src/index.ts] (the [tools/call] request handler
    and its progress channel), of the demo server of [test-runner.js]
    (array registry and [handleRequest]) and of [ImageGenerationSchema] of
    [src/constants.ts], with the properties the specification states about
    them.

    Conventions of the embedding.
    - A JavaScript string is the list of its UTF-16 code units, so that
      [length], [slice] and [trim] count what the engine counts.
    - The module-level [let] variables of [index.ts], the interval timers
      created by [setInterval] and everything handed to
      [server.notification] live in one [State]; a function of the source
      that reads or writes them is a computation in the monad [M], whose
      results are either normal or a thrown value.
    - Node runs one callback at a time.  An [async] function runs up to its
      first suspension when it is called; a call that is not awaited is
      modelled by [detach], which runs the callee and drops its completion. *)

From Stdlib Require Import String Ascii NArith ZArith List Bool Lia DecimalString.
From stdpp Require Import base list.
Import ListNotations.

Local Open Scope nat_scope.
Local Open Scope list_scope.

(** ** JavaScript strings *)

Module Js.

Definition jsstring : Type := list N.

(** An ASCII literal of the source, as code units. *)
Definition lit (s : string) : jsstring :=
  List.map N_of_ascii (list_ascii_of_string s).
Arguments lit s : simpl never.

(** [s.slice(-n)]: the last [n] code units, the whole string when it is
    shorter. *)
Definition slice_last (n : nat) (s : jsstring) : jsstring :=
  drop (length s - n) s.

(** White space and line terminators, the code units [String.prototype.trim]
    strips. *)
Definition is_space (u : N) : bool :=
  (((9 <=? u) && (u <=? 13)) || (u =? 32) || (u =? 160) || (u =? 5760)
   || ((8192 <=? u) && (u <=? 8202)) || (u =? 8232) || (u =? 8233)
   || (u =? 8239) || (u =? 8287) || (u =? 12288) || (u =? 65279))%N.

Fixpoint trimStart (s : jsstring) : jsstring :=
  match s with
  | u :: s' => if is_space u then trimStart s' else s
  | [] => []
  end.

Definition trimEnd (s : jsstring) : jsstring := rev (trimStart (rev s)).

Definition trim (s : jsstring) : jsstring := trimEnd (trimStart s).

(** Truthiness of a string: [if (s)] holds for every string but the empty
    one. *)
Definition nonempty (s : jsstring) : bool :=
  match s with [] => false | _ :: _ => true end.

(** [hay.includes(needle)]. *)
Definition includes (needle hay : jsstring) : Prop :=
  exists pre post, hay = pre ++ needle ++ post.

(** The values a request can carry in [arguments] and the values a tool can
    throw that are not [Error] objects.  [VOther] is any other value (a
    number that is not an integer, an array, an object), with the string
    [String(v)] gives for it; all of them are truthy. *)
Inductive value : Type :=
| VUndefined
| VNull
| VBool (b : bool)
| VNumber (z : Z)
| VString (s : jsstring)
| VOther (shown : jsstring).

(** [${v}]. *)
Definition to_text (v : value) : jsstring :=
  match v with
  | VUndefined => lit "undefined"
  | VNull => lit "null"
  | VBool true => lit "true"
  | VBool false => lit "false"
  | VNumber z => lit (DecimalString.NilZero.string_of_int (Z.to_int z))
  | VString s => s
  | VOther shown => shown
  end.

(** [${v}] for an optional string property. *)
Definition template (o : option jsstring) : jsstring :=
  match o with
  | Some s => s
  | None => lit "undefined"
  end.

End Js.
Import Js.

(** ** Thrown values ([src/constants.ts], lines 121-143) *)

(** What a [catch] clause can receive.  [GeminiAPIError] is the class of
    [constants.ts]; [OtherError] is any other instance of [Error]
    ([Error] itself, [MediaProcessingError], a validation error, ...), with
    its [name]; [NotAnError] is a thrown value that is not an [Error]. *)
Inductive Thrown : Type :=
| GeminiAPIError (message : jsstring) (code : option jsstring)
    (statusCode : option Z)
| OtherError (name message : jsstring)
| NotAnError (v : value).

Definition new_Error (message : jsstring) : Thrown :=
  OtherError (lit "Error") message.

(** [error instanceof Error ? error.message : fallback]. *)
Definition message_or (fallback : jsstring) (error : Thrown) : jsstring :=
  match error with
  | GeminiAPIError message _ _ => message
  | OtherError _ message => message
  | NotAnError _ => fallback
  end.

(** ** Progress tokens *)

(** [progressToken: string | number | undefined]. *)
Inductive Token : Type :=
| NoToken
| StringToken (s : jsstring)
| NumberToken (z : Z).

(** [if (progressToken)]: the test the source applies to a token. *)
Definition truthy (t : Token) : bool :=
  match t with
  | NoToken => false
  | StringToken s => nonempty s
  | NumberToken z => negb (z =? 0)%Z
  end.

(** ** Notifications *)

Record ProgressParams : Type := mkProgress {
  progressToken : Token;
  progress : nat;
  total : option nat;
  message : option jsstring
}.

Inductive Params : Type :=
| ProgressOf (p : ProgressParams)
| AnyParams (json : jsstring).

Record Notification : Type := mkNotification {
  method : jsstring;
  params : Params
}.

(** [PROTOCOL] of [constants.ts]. *)
Module PROTOCOL.
Definition KEEPALIVE_INTERVAL : N := 25000%N.
Definition NOTIFICATIONS_PROGRESS : jsstring := lit "notifications/progress".
End PROTOCOL.

(** ** [src/logger.ts] *)

Module LoggerClass.

(** [LogLevel], the type of the [level] argument of the methods. *)
Inductive LogLevel : Type := debug | info | warn | error.

Definition level_name (level : LogLevel) : jsstring :=
  match level with
  | debug => lit "debug"
  | info => lit "info"
  | warn => lit "warn"
  | error => lit "error"
  end.

(** [levels[key]] for the record of [shouldLog], lines 66-71.  [None] stands
    for what a key other than the four gives: [undefined] or a member
    inherited from [Object.prototype], neither of which a number is [>=]. *)
Definition levels (key : jsstring) : option nat :=
  if bool_decide (key = lit "debug") then Some 0
  else if bool_decide (key = lit "info") then Some 1
  else if bool_decide (key = lit "warn") then Some 2
  else if bool_decide (key = lit "error") then Some 3
  else None.

(** The initial value of the static [logLevel], line 6, from the value of
    [process.env.LOG_LEVEL]: the cast does not check it. *)
Definition initial_logLevel (LOG_LEVEL : option jsstring) : jsstring :=
  match LOG_LEVEL with
  | Some l => if nonempty l then l else lit "info"
  | None => lit "info"
  end.

(** [setLevel], lines 76-78. *)
Definition setLevel (level : LogLevel) : jsstring := level_name level.

(** [shouldLog], lines 65-74, for the current [logLevel]. *)
Definition shouldLog (logLevel : jsstring) (level : LogLevel) : bool :=
  match levels (level_name level), levels logLevel with
  | Some l, Some threshold => threshold <=? l
  | _, _ => false
  end.

Definition toUpperCase_name (level : LogLevel) : jsstring :=
  match level with
  | debug => lit "DEBUG"
  | info => lit "INFO"
  | warn => lit "WARN"
  | error => lit "ERROR"
  end.

Inductive Stream : Type := console_log | console_warn | console_error.

Section Printing.

(** The colouring of [chalk] for a level and the text of
    [new Date().toISOString()] at the call. *)
Variable chalk : LogLevel -> jsstring -> jsstring.
Variable timestamp : jsstring.

(** [formatMessage], lines 8-19. *)
Definition formatMessage (level : LogLevel) (message : jsstring) : jsstring :=
  chalk level (timestamp ++ lit " [" ++ toUpperCase_name level ++ lit "] " ++ message).

(** The methods [debug], [info], [warn] and [error], lines 21-43: what they
    print, on which stream, with the further arguments [args] they pass on
    to the console. *)
Definition print {A} (logLevel : jsstring) (level : LogLevel)
    (message : jsstring) (args : A) : list (Stream * jsstring * A) :=
  if shouldLog logLevel level
  then [(match level with
         | debug | info => console_log
         | warn => console_warn
         | error => console_error
         end, formatMessage level message, args)]
  else [].

End Printing.

End LoggerClass.

(** ** State *)

(** The variables captured by the callback of one [setInterval] call in
    [startProgressUpdates], and whether [clearInterval] was applied to it. *)
Record Interval : Type := mkInterval {
  operationName : jsstring;
  intervalToken : Token;
  messageIndex : nat;
  progressCount : nat;
  cleared : bool
}.

Inductive LogCall : Type :=
| LogError (msg : jsstring) (cause : Thrown)
| LogToolInvocation (toolName : jsstring) (args : list (jsstring * value))
| LogToolSuccess (toolName result : jsstring).

Record State : Type := mkState {
  isProcessing : bool;
  currentOperationName : jsstring;
  latestOutput : jsstring;
  (** [setInterval] handles: the handle is the index *)
  timers : list Interval;
  (** every message handed to [server.notification], oldest first *)
  wire : list Notification;
  (** the transport: whether the call number [k] of [server.notification]
      fails, and with what *)
  transport : nat -> option Thrown;
  (** the static [Logger.logLevel] *)
  logLevel : jsstring;
  (** the calls of [Logger] that were printed, oldest first *)
  logged : list LogCall
}.

Definition set_isProcessing (b : bool) (s : State) : State :=
  mkState b (currentOperationName s) (latestOutput s) (timers s) (wire s)
    (transport s) (logLevel s) (logged s).

Definition set_currentOperationName (n : jsstring) (s : State) : State :=
  mkState (isProcessing s) n (latestOutput s) (timers s) (wire s)
    (transport s) (logLevel s) (logged s).

Definition set_latestOutput (o : jsstring) (s : State) : State :=
  mkState (isProcessing s) (currentOperationName s) o (timers s) (wire s)
    (transport s) (logLevel s) (logged s).

Definition set_timers (t : list Interval) (s : State) : State :=
  mkState (isProcessing s) (currentOperationName s) (latestOutput s) t
    (wire s) (transport s) (logLevel s) (logged s).

Definition set_wire (w : list Notification) (s : State) : State :=
  mkState (isProcessing s) (currentOperationName s) (latestOutput s)
    (timers s) w (transport s) (logLevel s) (logged s).

Definition set_transport (f : nat -> option Thrown) (s : State) : State :=
  mkState (isProcessing s) (currentOperationName s) (latestOutput s)
    (timers s) (wire s) f (logLevel s) (logged s).


Definition set_logged (l : list LogCall) (s : State) : State :=
  mkState (isProcessing s) (currentOperationName s) (latestOutput s)
    (timers s) (wire s) (transport s) (logLevel s) l.

(** ** The monad of the handlers *)

Inductive Completion (A : Type) : Type :=
| Normal (a : A)
| Abrupt (e : Thrown).
Arguments Normal {A} a.
Arguments Abrupt {A} e.

Definition M (A : Type) : Type := State -> Completion A * State.

Definition ret {A} (a : A) : M A := fun s => (Normal a, s).

Definition throw {A} (e : Thrown) : M A := fun s => (Abrupt e, s).

Definition bind {A B} (c : M A) (k : A -> M B) : M B :=
  fun s =>
    match c s with
    | (Normal a, s') => k a s'
    | (Abrupt e, s') => (Abrupt e, s')
    end.

(** [try { c } catch (error) { h error }]. *)
Definition try_catch {A} (c : M A) (h : Thrown -> M A) : M A :=
  fun s =>
    match c s with
    | (Normal a, s') => (Normal a, s')
    | (Abrupt e, s') => h e s'
    end.

(** A call of an [async] function whose promise is dropped: its effects
    happen, its completion reaches nobody. *)
Definition detach {A} (c : M A) : M unit :=
  fun s => (Normal tt, snd (c s)).

Definition gets {A} (f : State -> A) : M A := fun s => (Normal (f s), s).

Definition modify (f : State -> State) : M unit := fun s => (Normal tt, f s).

Declare Scope js_scope.
Delimit Scope js_scope with js.
Notation "'let!' x ':=' c 'in' k" := (bind c (fun x => k))
  (at level 10, x name, c at level 100, k at level 200) : js_scope.
Local Open Scope js_scope.

(** ** [src/index.ts]: notifications *)

(** The methods of [Logger] the handlers call ([src/logger.ts] lines 39-52):
    each prints its call when [shouldLog] holds for its level, [error] for
    [Logger.error] and [info], through [Logger.info], for the other two. *)
Module Logger.
Definition print (level : LoggerClass.LogLevel) (call : LogCall) : M unit :=
  modify (fun s => if LoggerClass.shouldLog (logLevel s) level
                   then set_logged (logged s ++ [call]) s
                   else s).
Definition error (msg : jsstring) (cause : Thrown) : M unit :=
  print LoggerClass.error (LogError msg cause).
Definition toolInvocation (toolName : jsstring)
    (args : list (jsstring * value)) : M unit :=
  print LoggerClass.info (LogToolInvocation toolName args).
Definition toolSuccess (toolName result : jsstring) : M unit :=
  print LoggerClass.info (LogToolSuccess toolName result).
End Logger.

(** [server.notification]: the message goes on the wire and the transport
    decides whether the call fails. *)
Definition server_notification (n : Notification) : M unit :=
  fun s =>
    let s' := set_wire (wire s ++ [n]) s in
    match transport s (length (wire s)) with
    | None => (Normal tt, s')
    | Some e => (Abrupt e, s')
    end.


(** Lines 80-104. *)
Definition sendProgressNotification (progressToken : Token) (progress : nat)
    (total : option nat) (message : option jsstring) : M unit :=
  if negb (truthy progressToken) then ret tt
  else
    try_catch
      (let params :=
         mkProgress progressToken progress total
           (match message with
            | Some m => if nonempty m then Some m else None
            | None => None
            end) in
       server_notification
         (mkNotification PROTOCOL.NOTIFICATIONS_PROGRESS (ProgressOf params)))
      (fun error =>
         Logger.error (lit "Failed to send progress notification:") error).

(** ** [src/index.ts]: the progress channel *)

(** The handle [setInterval] returns is the index of the new entry. *)
Definition setInterval (env : Interval) : M nat :=
  fun s => (Normal (length (timers s)), set_timers (timers s ++ [env]) s).

Definition mark_cleared (i : Interval) : Interval :=
  mkInterval (operationName i) (intervalToken i) (messageIndex i)
    (progressCount i) true.

Definition clearInterval (handle : nat) : M unit :=
  modify (fun s => set_timers (alter mark_cleared handle (timers s)) s).

(** Assignments to the variables [progress] and [messageIndex] of a
    callback's closure. *)
Definition incr_progress (i : Interval) : Interval :=
  mkInterval (operationName i) (intervalToken i) (messageIndex i)
    (S (progressCount i)) (cleared i).

Definition incr_messageIndex (i : Interval) : Interval :=
  mkInterval (operationName i) (intervalToken i) (S (messageIndex i))
    (progressCount i) (cleared i).

Definition update_closure (handle : nat) (f : Interval -> Interval) : M unit :=
  modify (fun s => set_timers (alter f handle (timers s)) s).

(** Lines 114-120. *)
Definition progressMessages (operationName : jsstring) : list jsstring :=
  [ [55356; 57256]%N ++ lit " " ++ operationName
      ++ lit " - Preparing your creative request...";
    [9889]%N ++ lit " " ++ operationName
      ++ lit " - Connecting to Gemini AI models...";
    [55357; 56580]%N ++ lit " " ++ operationName
      ++ lit " - Generating content (this may take a moment)...";
    [9203]%N ++ lit " " ++ operationName
      ++ lit " - Still processing... Quality results take time...";
    [55356; 57263]%N ++ lit " " ++ operationName
      ++ lit " - Finalizing your media output..." ].

(** The text between the phase message and the excerpt, line 141. *)
Definition status_marker : jsstring :=
  [10; 55357; 56541]%N ++ lit " Status: ...".

(** Lines 138-142, from the values read at that point. *)
Definition tick_message (operationName : jsstring) (messageIndex : nat)
    (latestOutput : jsstring) : jsstring :=
  let msgs := progressMessages operationName in
  let baseMessage := nth (messageIndex mod length msgs) msgs [] in
  let outputPreview := trim (slice_last 100 latestOutput) in
  if nonempty outputPreview
  then baseMessage ++ status_marker ++ outputPreview
  else baseMessage.

(** The callback given to [setInterval], lines 134-154; [self] is
    [progressInterval].  The callback is taken as one step: the delivery it
    awaits before [messageIndex++] is over before the next period elapses. *)
Definition progressInterval_callback (self : nat) : M unit :=
  let! closure := gets (fun s => timers s !! self) in
  match closure with
  | None => ret tt
  | Some env =>
      let! processing := gets isProcessing in
      if processing && truthy (intervalToken env) then
        let! _ := update_closure self incr_progress in
        let! latest := gets latestOutput in
        let message := tick_message (operationName env) (messageIndex env) latest in
        let! _ := sendProgressNotification (intervalToken env)
                    (S (progressCount env)) None (Some message) in
        update_closure self incr_messageIndex
      else if negb processing then clearInterval self
      else ret tt
  end.

(** One period of the interval [handle] elapses: the runtime calls the
    callback unless the interval was cleared, and ignores its promise. *)
Definition interval_elapses (handle : nat) : M unit :=
  let! closure := gets (fun s => timers s !! handle) in
  match closure with
  | Some env =>
      if cleared env then ret tt
      else detach (progressInterval_callback handle)
  | None => ret tt
  end.

Record ProgressData : Type := mkProgressData {
  interval : nat;
  dataToken : Token
}.

Definition starting_message (operationName : jsstring) : jsstring :=
  [55356; 57256]%N ++ lit " Starting " ++ operationName.

(** Lines 106-157. *)
Definition startProgressUpdates (operationName : jsstring)
    (progressToken : Token) : M ProgressData :=
  let! _ := modify (set_isProcessing true) in
  let! _ := modify (set_currentOperationName operationName) in
  let! _ := modify (set_latestOutput []) in
  let! _ := (if truthy progressToken
             then detach (sendProgressNotification progressToken 0 None
                            (Some (starting_message operationName)))
             else ret tt) in
  let! progressInterval :=
    setInterval (mkInterval operationName progressToken 0 0 false) in
  ret (mkProgressData progressInterval progressToken).

Definition final_message (operationName : jsstring) (success : bool) : jsstring :=
  if success
  then [9989]%N ++ lit " " ++ operationName ++ lit " completed successfully!"
  else [10060]%N ++ lit " " ++ operationName ++ lit " failed".

(** Lines 159-176. *)
Definition stopProgressUpdates (progressData : ProgressData)
    (success : bool) : M unit :=
  let! operationName := gets currentOperationName in
  let! _ := modify (set_isProcessing false) in
  let! _ := modify (set_currentOperationName []) in
  let! _ := clearInterval (interval progressData) in
  if truthy (dataToken progressData)
  then detach (sendProgressNotification (dataToken progressData) 100 (Some 100)
                 (Some (final_message operationName success)))
  else ret tt.

(** ** [src/index.ts]: the [tools/call] handler *)

Definition ToolArguments : Type := list (jsstring * value).

(** What a call of [executeTool] does until its promise settles, as far as
    the handler can tell: it calls the [onProgress] callback, it is
    suspended for one period of the keep-alive interval (waiting for the
    backend), and in the end it resolves with a text or rejects. *)
Inductive Exec : Type :=
| Resolves (result : jsstring)
| Rejects (error : Thrown)
| CallsOnProgress (newOutput : jsstring) (rest : Exec)
| Suspended (rest : Exec).

Record CallToolRequest : Type := mkRequest {
  name : jsstring;
  arguments : option ToolArguments;
  meta_progressToken : Token
}.

(** [{ content: [{ type: "text", text }], isError }]. *)
Record CallToolResult : Type := mkResult {
  text : jsstring;
  isError : bool
}.

(** The callback passed to [executeTool], lines 198-200. *)
Definition onProgress (newOutput : jsstring) : M unit :=
  modify (set_latestOutput newOutput).

(** [await executeTool(...)] while the interval [handle] is the one of the
    invocation. *)
Fixpoint await_execution (handle : nat) (run : Exec) : M jsstring :=
  match run with
  | Resolves result => ret result
  | Rejects error => throw error
  | CallsOnProgress newOutput rest =>
      let! _ := onProgress newOutput in await_execution handle rest
  | Suspended rest =>
      let! _ := interval_elapses handle in await_execution handle rest
  end.

(** Lines 219-224. *)
Definition errorMessage_of (error : Thrown) : jsstring :=
  match error with
  | GeminiAPIError message code _ => message ++ lit " (" ++ template code ++ lit ")"
  | OtherError _ message => message
  | NotAnError _ => lit "Unknown error occurred"
  end.

Section Handler.

(** [toolExists] and [executeTool] are imported from [./tools/registry.js]. *)
Variable toolExists : jsstring -> bool.
Variable executeTool : jsstring -> ToolArguments -> Exec.

(** Lines 185-239. *)
Definition handler (request : CallToolRequest) : M CallToolResult :=
  let toolName := name request in
  if toolExists toolName then
    let progressToken := meta_progressToken request in
    let! progressData := startProgressUpdates toolName progressToken in
    try_catch
      (let args := default [] (arguments request) in
       let! _ := Logger.toolInvocation toolName args in
       let! result := await_execution (interval progressData)
                        (executeTool toolName args) in
       let! _ := stopProgressUpdates progressData true in
       let! _ := Logger.toolSuccess toolName result in
       ret (mkResult result false))
      (fun error =>
         let! _ := stopProgressUpdates progressData false in
         let! _ := Logger.error
                     (lit "Error in tool '" ++ toolName ++ lit "':") error in
         let errorMessage := errorMessage_of error in
         ret (mkResult
                ([10060]%N ++ lit " Error executing " ++ toolName ++ lit ": "
                 ++ errorMessage)
                true))
  else throw (new_Error (lit "Unknown tool: " ++ name request)).

End Handler.

(** ** Interleaved invocations *)

(** The handler is suspended at [await executeTool(...)], so the steps of
    several invocations interleave.  An [Event] is one uninterrupted step
    of one of them that touches the progress channel. *)
Inductive Event : Type :=
| Starts (toolName : jsstring) (progressToken : Token)
| Reports (newOutput : jsstring)
| Elapses (handle : nat)
| Stops (progressData : ProgressData) (success : bool).

Definition step (e : Event) : M unit :=
  match e with
  | Starts toolName progressToken =>
      let! _ := startProgressUpdates toolName progressToken in ret tt
  | Reports newOutput => onProgress newOutput
  | Elapses handle => interval_elapses handle
  | Stops progressData success => stopProgressUpdates progressData success
  end.

Fixpoint steps (es : list Event) (s : State) : State :=
  match es with
  | [] => s
  | e :: es' => steps es' (snd (step e s))
  end.

(** The state of a server that has handled no request, with a transport
    that never fails. *)
Definition initial : State :=
  mkState false [] [] [] [] (fun _ => None)
    (LoggerClass.initial_logLevel None) [].

(** ** Validation of arguments ([zod], as far as [constants.ts] uses it) *)

Module Zod.

Inductive IssueCode : Type :=
| invalid_type
| too_small
| too_big
| invalid_enum_value.

Record ZodIssue : Type := mkIssue {
  path : jsstring;
  code : IssueCode;
  custom : option jsstring
}.

(** A bound of [.min(n, msg)] or [.max(n, msg)]. *)
Definition Bound (A : Type) : Type := option (A * option jsstring).

Inductive ZodType : Type :=
| ZString (min max : Bound nat)
| ZEnum (values : list jsstring)
| ZInt (min max : Bound Z).

Inductive Presence : Type :=
| Required
| Optional
| Default (v : value).

Record ZodField : Type := mkField {
  key : jsstring;
  type : ZodType;
  presence : Presence
}.

Definition ZodObject : Type := list ZodField.

Definition jsstring_eqb (a b : jsstring) : bool :=
  bool_decide (a = b).

(** [raw[key]]. *)
Fixpoint property (k : jsstring) (raw : list (jsstring * value)) : value :=
  match raw with
  | [] => VUndefined
  | (k', v) :: raw' => if jsstring_eqb k k' then v else property k raw'
  end.

Definition below {A} (ltb : A -> A -> bool) (k : jsstring) (c : IssueCode)
    (b : Bound A) (x : A) : list ZodIssue :=
  match b with
  | Some (n, msg) => if ltb x n then [mkIssue k c msg] else []
  | None => []
  end.

Definition above {A} (ltb : A -> A -> bool) (k : jsstring) (c : IssueCode)
    (b : Bound A) (x : A) : list ZodIssue :=
  match b with
  | Some (n, msg) => if ltb n x then [mkIssue k c msg] else []
  | None => []
  end.

(** The issues a defined value raises against a type. *)
Definition check (k : jsstring) (t : ZodType) (v : value) : list ZodIssue :=
  match t, v with
  | ZString min max, VString s =>
      below Nat.ltb k too_small min (length s)
      ++ above Nat.ltb k too_big max (length s)
  | ZString _ _, _ => [mkIssue k invalid_type None]
  | ZEnum values, VString s =>
      if existsb (jsstring_eqb s) values then []
      else [mkIssue k invalid_enum_value None]
  | ZEnum _, _ => [mkIssue k invalid_type None]
  | ZInt min max, VNumber z =>
      below Z.ltb k too_small min z ++ above Z.ltb k too_big max z
  | ZInt _ _, _ => [mkIssue k invalid_type None]
  end.

(** One field of [z.object]: the issues, and the property of the parsed
    object if there is one. *)
Definition parse_field (f : ZodField) (raw : list (jsstring * value))
    : list ZodIssue * list (jsstring * value) :=
  match property (key f) raw, presence f with
  | VUndefined, Required => ([mkIssue (key f) invalid_type None], [])
  | VUndefined, Optional => ([], [])
  | VUndefined, Default d => ([], [(key f, d)])
  | v, _ => (check (key f) (type f) v, [(key f, v)])
  end.

(** [schema.safeParse(raw)]: every field is checked, unknown keys are
    dropped, and the parse fails when there is any issue. *)
Fixpoint parse_fields (schema : ZodObject) (raw : list (jsstring * value))
    : list ZodIssue * list (jsstring * value) :=
  match schema with
  | [] => ([], [])
  | f :: schema' =>
      let '(issues, parsed) := parse_field f raw in
      let '(issues', parsed') := parse_fields schema' raw in
      (issues ++ issues', parsed ++ parsed')
  end.

Definition safeParse (schema : ZodObject) (raw : list (jsstring * value))
    : list ZodIssue + list (jsstring * value) :=
  match parse_fields schema raw with
  | ([], parsed) => inr parsed
  | (issues, _) => inl issues
  end.

Definition code_name (c : IssueCode) : jsstring :=
  match c with
  | invalid_type => lit "invalid_type"
  | too_small => lit "too_small"
  | too_big => lit "too_big"
  | invalid_enum_value => lit "invalid_enum_value"
  end.

(** The message of a [ZodError] lists the issues.  The library prints them
    as JSON; the rendering here keeps, for each issue, its path, its code and
    its custom message, one issue per line. *)
Definition issue_line (i : ZodIssue) : jsstring :=
  path i ++ lit ": " ++ code_name (code i)
  ++ match custom i with Some m => lit " " ++ m | None => [] end.

Definition ZodError (issues : list ZodIssue) : Thrown :=
  OtherError (lit "ZodError")
    (concat (List.map (fun i => issue_line i ++ [10%N]) issues)).

End Zod.

(** [ImageGenerationSchema], [src/constants.ts] lines 54-61. *)
Definition ImageGenerationSchema : Zod.ZodObject :=
  [ Zod.mkField (lit "prompt")
      (Zod.ZString (Some (1, Some (lit "Prompt is required")))
                   (Some (2000, Some (lit "Prompt too long"))))
      Zod.Required;
    Zod.mkField (lit "model")
      (Zod.ZEnum [lit "nano-banana"; lit "imagen3"; lit "imagen4"])
      (Zod.Default (VString (lit "nano-banana")));
    Zod.mkField (lit "aspectRatio")
      (Zod.ZEnum [lit "1:1"; lit "16:9"; lit "4:3"; lit "3:2"; lit "2:3";
                  lit "3:4"; lit "9:16"; lit "21:9"])
      (Zod.Default (VString (lit "1:1")));
    Zod.mkField (lit "quality")
      (Zod.ZEnum [lit "standard"; lit "high"])
      (Zod.Default (VString (lit "standard")));
    Zod.mkField (lit "style")
      (Zod.ZEnum [lit "natural"; lit "artistic"; lit "photorealistic";
                  lit "cartoon"; lit "anime"])
      (Zod.Default (VString (lit "natural")));
    Zod.mkField (lit "seed")
      (Zod.ZInt (Some (0%Z, None)) (Some (4294967295%Z, None)))
      Zod.Optional ].

(** ** The registry of [src/tools/registry.ts] *)

Module Registry.

(** The shape of the definitions the tool modules register (for instance
    [image-generation.ts], lines 18-81), without the [prompt] metadata that
    only the prompt listing reads.  [execute] is given the parsed arguments;
    what it does with the client and the [onProgress] callback is its
    [Exec]. *)
Record UnifiedTool : Type := mkTool {
  name : jsstring;
  description : jsstring;
  category : jsstring;
  zodSchema : Zod.ZodObject;
  execute : ToolArguments -> Exec
}.

(** Modelled from the spec: [src/tools/registry.ts] is not among the
    sources.  The registry maps each name to one definition and lists them
    in registration order. *)
Definition toolRegistry : Type := list UnifiedTool.

(** Modelled from the spec: the key of an entry is the name of its
    definition, compared as strings. *)
Definition named (n : jsstring) (tool : UnifiedTool) : bool :=
  Zod.jsstring_eqb (name tool) n.

(** Modelled from the spec: [resolve] of the missing [registry.ts] returns
    the definition registered under the name, or nothing. *)
Definition resolve (n : jsstring) (registry : toolRegistry) : option UnifiedTool :=
  find (named n) registry.

(** Modelled from the spec: [toolExists] of the missing [registry.ts]. *)
Definition toolExists (registry : toolRegistry) (n : jsstring) : bool :=
  match resolve n registry with Some _ => true | None => false end.

(** Modelled from the spec: [registerTool] of the missing [registry.ts]
    inserts the definition, or replaces the entry of the same name where it
    stands. *)
Definition registerTool (tool : UnifiedTool) (registry : toolRegistry) : toolRegistry :=
  if toolExists registry (name tool)
  then List.map (fun t => if named (name tool) t then tool else t) registry
  else registry ++ [tool].

(** Modelled from the spec: [executeTool] of the missing [registry.ts] runs
    the argument schema of the operation on the raw arguments, rejects with
    the validation error when it fails and calls [execute] on the parsed
    arguments otherwise.  A name that does not resolve is rejected as an
    unknown operation; the handler excludes it by testing [toolExists]
    first. *)
Definition executeTool (registry : toolRegistry) (n : jsstring)
    (args : ToolArguments) : Exec :=
  match resolve n registry with
  | None => Rejects (new_Error (lit "Unknown tool: " ++ n))
  | Some tool =>
      match Zod.safeParse (zodSchema tool) args with
      | inl issues => Rejects (Zod.ZodError issues)
      | inr parsed => execute tool parsed
      end
  end.

End Registry.

(** ** [generate_image_nano_banana] ([src/tools/image-generation.ts], lines 18-81) *)

Module ImageGeneration.

(** What [geminiClient.generateImage] does for the call: the keep-alive
    periods that elapse until it settles, and the [imageUrl] and [mediaId]
    it resolves with or the value it rejects with. *)
Record Backend : Type := mkBackend {
  periods : nat;
  reply : Completion (jsstring * jsstring)
}.

Fixpoint suspended (n : nat) (rest : Exec) : Exec :=
  match n with
  | 0 => rest
  | S n' => Suspended (suspended n' rest)
  end.

Definition newline : jsstring := [10%N].

Definition success_text (args : ToolArguments) (imageUrl mediaId : jsstring) : jsstring :=
  [63743; 252; 233; 174]%N ++ lit " **Image Generated Successfully!**" ++ newline
  ++ newline
  ++ lit "**Model:** Nano Banana (Gemini 2.5 Flash Image)" ++ newline
  ++ lit "**Prompt:** " ++ to_text (Zod.property (lit "prompt") args) ++ newline
  ++ lit "**Style:** " ++ to_text (Zod.property (lit "style") args) ++ newline
  ++ lit "**Aspect Ratio:** " ++ to_text (Zod.property (lit "aspectRatio") args)
  ++ newline
  ++ lit "**Quality:** " ++ to_text (Zod.property (lit "quality") args) ++ newline
  ++ newline
  ++ lit "**Generated Image URL:** " ++ imageUrl ++ newline
  ++ lit "**Media ID:** " ++ mediaId ++ newline
  ++ newline
  ++ lit "**Features:**" ++ newline
  ++ lit "- Fast generation" ++ newline
  ++ lit "- High quality output" ++ newline
  ++ lit "- Natural style support" ++ newline
  ++ lit "- Multiple aspect ratios" ++ newline
  ++ newline
  ++ lit "*Image generated using Google's Gemini AI via Nano Banana model*".

(** [execute], lines 43-80, with the [onProgress] callback the handler
    passes. *)
Definition execute (backend : Backend) (args : ToolArguments) : Exec :=
  CallsOnProgress (lit "Preparing image generation request...")
    (suspended (periods backend)
       match reply backend with
       | Normal (imageUrl, mediaId) =>
           CallsOnProgress (lit "Image generated successfully!")
             (Resolves (success_text args imageUrl mediaId))
       | Abrupt error =>
           CallsOnProgress (lit "Error: " ++ message_or (lit "Unknown error") error)
             (Rejects
                (GeminiAPIError
                   (lit "Nano Banana image generation failed: "
                    ++ message_or (lit "Unknown error") error)
                   None None))
       end).

Definition generateImageNanoBanana (backend : Backend) : Registry.UnifiedTool :=
  Registry.mkTool
    (lit "generate_image_nano_banana")
    (lit "Generate high-quality images using the Nano Banana model (Gemini 2.5 Flash Image). Fast and efficient for most use cases with natural styles.")
    (lit "image-generation")
    ImageGenerationSchema
    (execute backend).

End ImageGeneration.

(** ** The demo server of [test-runner.js] (lines 111-476) *)

Module Demo.

(** One property of a tool's [schema] object: its [default] ([VUndefined]
    when the key is absent) and its other keys as written. *)
Record Property : Type := mkProperty {
  default_value : value;
  constraints : jsstring
}.

Record Tool : Type := mkTool {
  name : jsstring;
  description : jsstring;
  category : jsstring;
  schema : list (jsstring * Property);
  (** [execute] is [async]: the settled promise for given arguments *)
  execute : ToolArguments -> Completion jsstring
}.

(** The module's array and what it wrote to the console. *)
Record Server : Type := mkServer {
  toolRegistry : list Tool;
  console : list jsstring
}.

(** Lines 118-121. *)
Definition registerTool (tool : Tool) (srv : Server) : Server :=
  mkServer
    (toolRegistry srv ++ [tool])
    (console srv
     ++ [[55357; 56615]%N ++ lit " Registered tool: " ++ name tool
         ++ lit " (" ++ category tool ++ lit ")"]).

(** [if (v)]. *)
Definition truthy_value (v : value) : bool :=
  match v with
  | VUndefined | VNull => false
  | VBool b => b
  | VNumber z => negb (z =? 0)%Z
  | VString s => nonempty s
  | VOther _ => true
  end.

Record Listing : Type := mkListing {
  listed_name : jsstring;
  listed_description : jsstring;
  properties : list (jsstring * Property);
  required : list jsstring
}.

Definition listing_of (tool : Tool) : Listing :=
  mkListing (name tool) (description tool) (schema tool)
    (List.map fst
       (List.filter (fun kp => negb (truthy_value (default_value (snd kp))))
          (schema tool))).

Record Request : Type := mkRequest {
  method : jsstring;
  params_name : jsstring;
  params_arguments : option ToolArguments
}.

Inductive Response : Type :=
| ToolsReply (tools : list Listing)
| CallReply (text : jsstring) (isError : bool)
| ErrorReply (error : jsstring).

(** [this.tools.find(t => t.name === params.name)]. *)
Definition lookup_tool (n : jsstring) (srv : Server) : option Tool :=
  find (fun t => Zod.jsstring_eqb (name t) n) (toolRegistry srv).

(** [SimpleMCPServer.handleRequest], lines 395-434. *)
Definition handleRequest (srv : Server) (request : Request) : Response :=
  if Zod.jsstring_eqb (method request) (lit "tools/list") then
    ToolsReply (List.map listing_of (toolRegistry srv))
  else if Zod.jsstring_eqb (method request) (lit "tools/call") then
    match lookup_tool (params_name request) srv with
    | None => ErrorReply (lit "Unknown tool: " ++ params_name request)
    | Some tool =>
        match execute tool (default [] (params_arguments request)) with
        | Normal result => CallReply result false
        | Abrupt error =>
            CallReply (lit "Error: " ++ message_or (lit "Unknown error") error)
              true
        end
    end
  else ErrorReply (lit "Unknown method: " ++ method request).

End Demo.

(** ** What an execution shows from outside *)

(** The number of keep-alive periods that elapse before it settles. *)
Fixpoint suspensions (run : Exec) : nat :=
  match run with
  | Resolves _ | Rejects _ => 0
  | CallsOnProgress _ rest => suspensions rest
  | Suspended rest => S (suspensions rest)
  end.

Fixpoint settles (run : Exec) : Completion jsstring :=
  match run with
  | Resolves result => Normal result
  | Rejects error => Abrupt error
  | CallsOnProgress _ rest | Suspended rest => settles rest
  end.

(** The last status pushed, [latest] if there is none. *)
Fixpoint last_output (latest : jsstring) (run : Exec) : jsstring :=
  match run with
  | Resolves _ | Rejects _ => latest
  | CallsOnProgress newOutput rest => last_output newOutput rest
  | Suspended rest => last_output latest rest
  end.

(** The status in [latestOutput] when period [n] (from 1) elapses, if the
    status was [latest] at the beginning. *)
Fixpoint status_at (n : nat) (latest : jsstring) (run : Exec) : jsstring :=
  match run with
  | Resolves _ | Rejects _ => latest
  | CallsOnProgress newOutput rest => status_at n newOutput rest
  | Suspended rest =>
      match n with
      | 0 | 1 => latest
      | S n' => status_at n' latest rest
      end
  end.

Definition progress_notification (tok : Token) (progress : nat)
    (total : option nat) (message : jsstring) : Notification :=
  mkNotification PROTOCOL.NOTIFICATIONS_PROGRESS
    (ProgressOf (mkProgress tok progress total (Some message))).

(** The ticks of the periods of [run], when [k] ticks were sent before and
    the status is [latest]. *)
Fixpoint ticks (toolName : jsstring) (tok : Token) (k : nat)
    (latest : jsstring) (run : Exec) : list Notification :=
  match run with
  | Resolves _ | Rejects _ => []
  | CallsOnProgress newOutput rest => ticks toolName tok k newOutput rest
  | Suspended rest =>
      progress_notification tok (S k) None (tick_message toolName k latest)
      :: ticks toolName tok (S k) latest rest
  end.

Definition succeeded {A} (c : Completion A) : bool :=
  match c with Normal _ => true | Abrupt _ => false end.

(** Everything an invocation puts on the wire. *)
Definition channel_trace (toolName : jsstring) (tok : Token) (run : Exec)
    : list Notification :=
  if truthy tok then
    [progress_notification tok 0 None (starting_message toolName)]
    ++ ticks toolName tok 0 [] run
    ++ [progress_notification tok 100 (Some 100)
          (final_message toolName (succeeded (settles run)))]
  else [].

(** The result the handler builds from a settled execution. *)
Definition result_of (toolName : jsstring) (c : Completion jsstring) : CallToolResult :=
  match c with
  | Normal result => mkResult result false
  | Abrupt error =>
      mkResult
        ([10060]%N ++ lit " Error executing " ++ toolName ++ lit ": "
         ++ errorMessage_of error)
        true
  end.

(** ** Closed forms of the steps *)

(** The state after a send whose failure is caught and handed to
    [Logger.error] as [what]. *)
Definition caught (what : jsstring) (n : Notification) (s : State) : State :=
  let s' := set_wire (wire s ++ [n]) s in
  match transport s (length (wire s)) with
  | None => s'
  | Some e =>
      if LoggerClass.shouldLog (logLevel s') LoggerClass.error
      then set_logged (logged s' ++ [LogError what e]) s'
      else s'
  end.

Definition progress_failure : jsstring :=
  lit "Failed to send progress notification:".
Arguments progress_failure : simpl never.

Definition started (toolName : jsstring) (tok : Token) (s : State) : State :=
  let s0 := set_latestOutput []
              (set_currentOperationName toolName (set_isProcessing true s)) in
  let s1 := if truthy tok
            then caught progress_failure
                   (progress_notification tok 0 None (starting_message toolName)) s0
            else s0 in
  set_timers (timers s1 ++ [mkInterval toolName tok 0 0 false]) s1.

Definition stopped (progressData : ProgressData) (success : bool) (s : State) : State :=
  let s0 := set_timers (alter mark_cleared (interval progressData) (timers s))
              (set_currentOperationName [] (set_isProcessing false s)) in
  if truthy (dataToken progressData)
  then caught progress_failure
         (progress_notification (dataToken progressData) 100 (Some 100)
            (final_message (currentOperationName s) success)) s0
  else s0.

(** The state after the callback of [handle], whose closure is [env], ran. *)
Definition called_back (handle : nat) (env : Interval) (s : State) : State :=
  if isProcessing s && truthy (intervalToken env) then
    let s1 := set_timers (alter incr_progress handle (timers s)) s in
    let s2 := caught progress_failure
                (progress_notification (intervalToken env) (S (progressCount env))
                   None
                   (tick_message (operationName env) (messageIndex env)
                      (latestOutput s)))
                s1 in
    set_timers (alter incr_messageIndex handle (timers s2)) s2
  else if negb (isProcessing s) then
    set_timers (alter mark_cleared handle (timers s)) s
  else s.

(** The execution the handler awaits for a request. *)
Definition execution_of (executeTool : jsstring -> ToolArguments -> Exec)
    (request : CallToolRequest) : Exec :=
  executeTool (name request) (default [] (arguments request)).

(** The number of ticks the interval of the invocation has sent when the
    execution settles. *)
Definition ticks_sent (tok : Token) (run : Exec) : nat :=
  if truthy tok then suspensions run else 0.

Definition error_prefix (toolName : jsstring) : jsstring :=
  [10060]%N ++ lit " Error executing " ++ toolName ++ lit ": ".

(** The raw arguments break a constraint the schema declares: some field
    raises an issue. *)
Definition violates (schema : Zod.ZodObject) (raw : ToolArguments) : Prop :=
  exists f, In f schema /\ fst (Zod.parse_field f raw) <> [].

(** What a step puts on the wire. *)
Definition sent_by (e : Event) (s : State) : list Notification :=
  drop (length (wire s)) (wire (snd (step e s))).

(** ** Scenarios *)

(** A backend call that takes two keep-alive periods and succeeds. *)
Definition two_periods : ImageGeneration.Backend :=
  ImageGeneration.mkBackend 2
    (Normal (lit "https://storage.example/img_1.png", lit "img_1")).

(** A backend call that fails at once with a plain [Error]. *)
Definition boom : ImageGeneration.Backend :=
  ImageGeneration.mkBackend 0 (Abrupt (new_Error (lit "boom"))).

Definition one_tool (backend : ImageGeneration.Backend) : Registry.toolRegistry :=
  Registry.registerTool (ImageGeneration.generateImageNanoBanana backend) [].

Definition missing_request : CallToolRequest :=
  mkRequest (lit "missing_tool") None (StringToken (lit "progress-1")).

Definition empty_demo : Demo.Server := Demo.mkServer [] [].

(** The request of the scenarios: an image of a cat, with a progress token. *)
Definition cat_request : CallToolRequest :=
  mkRequest (lit "generate_image_nano_banana")
    (Some [(lit "prompt", VString (lit "a cat"))])
    (StringToken (lit "progress-1")).

Definition empty_prompt_request : CallToolRequest :=
  mkRequest (lit "generate_image_nano_banana")
    (Some [(lit "prompt", VString [])])
    (StringToken (lit "progress-1")).

Definition zero_token_request : CallToolRequest :=
  mkRequest (lit "generate_image_nano_banana")
    (Some [(lit "prompt", VString (lit "a cat"))])
    (NumberToken 0).

(** An operation that reports a status ending in a space and is suspended
    for one period. *)
Definition trailing_space : Exec :=
  CallsOnProgress (lit "Rendering ") (Suspended (Resolves (lit "done"))).

(** A transport on which every call fails. *)
Definition dead_transport : State :=
  set_transport (fun _ => Some (new_Error (lit "write EPIPE"))) initial.


Definition both_running : State :=
  steps [Starts (lit "generate_image_nano_banana") (StringToken (lit "progress-a"));
         Starts (lit "generate_video_veo") (StringToken (lit "progress-b"))]
    initial.

Definition first_channel : ProgressData :=
  mkProgressData 0 (StringToken (lit "progress-a")).

Definition echo : Demo.Tool :=
  Demo.mkTool (lit "echo") (lit "Returns its prompt.") (lit "text-processing")
    [(lit "prompt", Demo.mkProperty VUndefined (lit "type: string, minLength: 1"))]
    (fun args => Normal (to_text (Zod.property (lit "prompt") args))).

Definition echo_twice : Demo.Tool :=
  Demo.mkTool (lit "echo") (lit "Returns its prompt twice.") (lit "text-processing")
    [(lit "prompt", Demo.mkProperty VUndefined (lit "type: string, minLength: 1"))]
    (fun args => Normal (to_text (Zod.property (lit "prompt") args)
                         ++ to_text (Zod.property (lit "prompt") args))).

Definition call_echo : Demo.Request :=
  Demo.mkRequest (lit "tools/call") (lit "echo")
    (Some [(lit "prompt", VString (lit "hi"))]).

(** ** Further scenarios *)

(** A backend call that takes 101 keep-alive periods and succeeds. *)
Definition slow_backend : ImageGeneration.Backend :=
  ImageGeneration.mkBackend 101
    (Normal (lit "https://storage.example/img_2.png", lit "img_2")).

(** The events other than the periods of the interval [h]. *)
Definition without_periods_of (h : nat) (es : list Event) : list Event :=
  List.filter (fun e => match e with
                        | Elapses h' => negb (h' =? h)
                        | _ => true
                        end) es.

(** ** [src/index.ts] and the client: start-up and health check *)

Module Startup.








(** [GeminiAPIClient.healthCheck] (client, lines 361-369), for the outcome
    of the request it sends. *)
Definition client_healthCheck (probe : Completion unit) : Completion bool :=
  match probe with
  | Normal _ => Normal true
  | Abrupt _ => Normal false
  end.

Record Health : Type := mkHealth {
  status : jsstring;
  health_error : option jsstring;
  health_timestamp : jsstring
}.

(** [healthCheck] of [index.ts], lines 275-293: the calls of [Logger] with
    their level, and the object returned. *)
Definition healthCheck (client : Completion bool) (timestamp : jsstring)
    : list (LoggerClass.LogLevel * jsstring) * Health :=
  match client with
  | Normal true =>
      ([(LoggerClass.info, [9989]%N ++ lit " Gemini API health check passed")],
       mkHealth (lit "healthy") None timestamp)
  | Normal false =>
      ([(LoggerClass.warn, [9888; 65039]%N ++ lit " Gemini API health check failed")],
       mkHealth (lit "unhealthy") None timestamp)
  | Abrupt error =>
      ([(LoggerClass.error, [10060]%N ++ lit " Health check error:")],
       mkHealth (lit "error") (Some (message_or (lit "Unknown error") error))
         timestamp)
  end.

End Startup.

(** ** The client: image generation ([gemini-client.ts]) *)

Module GeminiClient.

(** [GEMINI_MODELS], [src/constants.ts] lines 37-51, the image models. *)
Definition IMAGE_NANO_BANANA : jsstring := lit "gemini-2.5-flash-image".
Definition IMAGE_IMAGEN3 : jsstring := lit "imagen-3.0-generate-002".
Definition IMAGE_IMAGEN4 : jsstring := lit "imagen-4.0-generate-preview-06-06".

(** [getImageModel], client lines 275-284. *)
Definition getImageModel (type : jsstring) : jsstring :=
  if Zod.jsstring_eqb type (lit "imagen3") then IMAGE_IMAGEN3
  else if Zod.jsstring_eqb type (lit "imagen4") then IMAGE_IMAGEN4
  else IMAGE_NANO_BANANA.

Record ImageParams : Type := mkImageParams {
  prompt : value;
  model : jsstring;
  aspectRatio : value;
  quality : value;
  style : value;
  seed : value
}.

(** [buildImagePrompt], client lines 286-293. *)
Definition buildImagePrompt (params : ImageParams) : jsstring :=
  lit "Generate an image with the following specifications:" ++ [10%N]
  ++ to_text (prompt params) ++ [10%N]
  ++ [10%N]
  ++ lit "Style: " ++ to_text (style params) ++ [10%N]
  ++ lit "Aspect Ratio: " ++ to_text (aspectRatio params) ++ [10%N]
  ++ lit "Quality: " ++ to_text (quality params)
  ++ (if Demo.truthy_value (seed params)
      then [10%N] ++ lit "Seed: " ++ to_text (seed params)
      else []).

(** [s.startsWith(prefix)]. *)
Fixpoint startsWith (prefix s : jsstring) : bool :=
  match prefix, s with
  | [], _ => true
  | p :: prefix', u :: s' => (p =? u)%N && startsWith prefix' s'
  | _ :: _, [] => false
  end.

Record InlineData : Type := mkInlineData {
  mimeType : option jsstring;
  data : jsstring
}.

(** What reading [response.data.candidates[0].content.parts[0]] and its
    [inlineData] gives: a [TypeError] when a member of [undefined] is read,
    or the part with its [inlineData], if it has one. *)
Inductive Body : Type :=
| Unreadable (message : jsstring)
| Part (inlineData : option InlineData).

(** An error as the [catch] clause of [generateImage] reads it: its
    [message], and its [response] if it has one (what [axios.post] rejects
    with when the server answered), with the [data.error.message] and
    [data.error.code] of the response, if present, and its status. *)
Inductive RequestError : Type :=
| WithResponse (message : jsstring) (api_message api_code : option jsstring)
    (status : Z)
| WithoutResponse (name message : jsstring).

Inductive Posted : Type :=
| Responded (body : Body)
| Failed (e : RequestError).

(** The texts of [Date.now()] and of the random suffix in
    [generateMediaId], and of [Date.now()] in [storeImage]. *)
Record Clock : Type := mkClock {
  id_now : jsstring;
  id_random : jsstring;
  store_now : jsstring
}.

(** [generateMediaId], client lines 356-358. *)
Definition generateMediaId (clock : Clock) : jsstring :=
  lit "gemini_" ++ id_now clock ++ lit "_" ++ id_random clock.

(** [storeImage], client lines 342-347. *)
Definition storeImage (mediaId : jsstring) (clock : Clock) : jsstring :=
  lit "https://storage.googleapis.com/gemini-generated-images/" ++ mediaId
  ++ lit "-" ++ store_now clock ++ lit ".jpg".

(** The [try] block of [generateImage], client lines 33-68: the result, or
    what its [catch] clause receives. *)
Definition attempt (posted : Posted) (clock : Clock)
    : RequestError + (jsstring * jsstring) :=
  match posted with
  | Failed e => inl e
  | Responded (Unreadable message) => inl (WithoutResponse (lit "TypeError") message)
  | Responded (Part inlineData) =>
      if match inlineData with
         | Some d =>
             match mimeType d with
             | Some t => startsWith (lit "image/") t
             | None => false
             end
         | None => false
         end
      then
        let mediaId := generateMediaId clock in
        inr (storeImage mediaId clock, mediaId)
      else inl (WithoutResponse (lit "GeminiAPIError") (lit "No image generated"))
  end.

(** [generateImage], client lines 25-80: the [imageUrl] and the [mediaId],
    or the error of the [catch] clause. *)
Definition generateImage (posted : Posted) (clock : Clock)
    : Completion (jsstring * jsstring) :=
  match attempt posted clock with
  | inr result => Normal result
  | inl (WithResponse message api_message api_code status) =>
      Abrupt
        (GeminiAPIError
           (lit "Gemini API error: "
            ++ match api_message with
               | Some m => if nonempty m then m else message
               | None => message
               end)
           api_code (Some status))
  | inl (WithoutResponse _ message) =>
      Abrupt
        (GeminiAPIError (lit "Image generation failed: " ++ message)
           (Some (lit "IMAGE_GENERATION_FAILED")) None)
  end.

End GeminiClient.

(** The arguments [execute] of [generate_image_nano_banana] passes to
    [generateImage], lines 47-54 of [image-generation.ts]. *)
Definition nano_banana_params (args : ToolArguments) : GeminiClient.ImageParams :=
  GeminiClient.mkImageParams
    (Zod.property (lit "prompt") args)
    (lit "nano-banana")
    (Zod.property (lit "aspectRatio") args)
    (Zod.property (lit "quality") args)
    (Zod.property (lit "style") args)
    (Zod.property (lit "seed") args).

(** The backend of a call whose request is answered after [periods]
    keep-alive periods. *)
Definition backend_of (periods : nat) (posted : GeminiClient.Posted)
    (clock : GeminiClient.Clock) : ImageGeneration.Backend :=
  ImageGeneration.mkBackend periods (GeminiClient.generateImage posted clock).

(** A response of the server with status 429 and an error body. *)
Definition quota_exceeded : GeminiClient.Posted :=
  GeminiClient.Failed
    (GeminiClient.WithResponse (lit "Request failed with status code 429")
       (Some (lit "Resource has been exhausted")) (Some (lit "429")) 429).

Definition a_clock : GeminiClient.Clock :=
  GeminiClient.mkClock (lit "1762423200000") (lit "k3j9x0q2a") (lit "1762423200004").

(** ** More schemas of [src/constants.ts] *)

(** [MediaManagementSchema], lines 98-103. *)
Definition MediaManagementSchema : Zod.ZodObject :=
  [ Zod.mkField (lit "action")
      (Zod.ZEnum [lit "list"; lit "download"; lit "delete"; lit "upload"])
      Zod.Required;
    Zod.mkField (lit "mediaId") (Zod.ZString None None) Zod.Optional;
    Zod.mkField (lit "limit")
      (Zod.ZInt (Some (1%Z, None)) (Some (100%Z, None)))
      (Zod.Default (VNumber 10));
    Zod.mkField (lit "offset")
      (Zod.ZInt (Some (0%Z, None)) None)
      (Zod.Default (VNumber 0)) ].

(** A schema whose keys are distinct and whose defaults pass their own
    type; [z.object] cannot repeat a key, and a default is not validated by
    the library. *)
Definition well_formed (schema : Zod.ZodObject) : Prop :=
  List.NoDup (List.map Zod.key schema)
  /\ Forall (fun f => match Zod.presence f with
                      | Zod.Default d =>
                          d <> VUndefined /\ Zod.check (Zod.key f) (Zod.type f) d = []
                      | _ => True
                      end) schema.

(** The property a field puts in the parsed object, [VUndefined] if none. *)
Definition produced (f : Zod.ZodField) (raw : ToolArguments) : value :=
  match snd (Zod.parse_field f raw) with
  | [(_, v)] => v
  | _ => VUndefined
  end.

(** ** The demo server: reading requests ([test-runner.js], lines 446-470) *)

Module DemoMain.

(** [s.split('\n')]: never empty. *)
Fixpoint split_newline (s : jsstring) : list jsstring :=
  match s with
  | [] => [[]]
  | u :: s' =>
      if (u =? 10)%N then [] :: split_newline s'
      else match split_newline s' with
           | l :: ls => (u :: l) :: ls
           | [] => [[u]]
           end
  end.

(** The lines the handler of ['data'] goes through and the new [buffer],
    lines 451-453. *)
Definition take_lines (buffer chunk : jsstring) : list jsstring * jsstring :=
  let lines := split_newline (buffer ++ chunk) in
  (List.removelast lines, List.last lines []).

(** What the loop passes to [JSON.parse], lines 455-458: the lines that are
    not blank, trimmed. *)
Definition to_parse (lines : list jsstring) : list jsstring :=
  List.map trim (List.filter (fun line => nonempty (trim line)) lines).

(** The handler of ['data'] on the chunks that arrive, one after the other,
    from the buffer [buffer]: what each chunk passes to [JSON.parse], in
    order, and the buffer left. *)
Fixpoint on_data (chunks : list jsstring) (buffer : jsstring)
    : list jsstring * jsstring :=
  match chunks with
  | [] => ([], buffer)
  | chunk :: chunks' =>
      let '(lines, buffer') := take_lines buffer chunk in
      let '(later, final) := on_data chunks' buffer' in
      (to_parse lines ++ later, final)
  end.

End DemoMain.

(** The [schema] of [list_generated_media] in the demo server, lines
    348-351. *)
Definition demo_list_schema : list (jsstring * Demo.Property) :=
  [(lit "limit", Demo.mkProperty (VNumber 10) (lit "type: number, min: 1, max: 100"));
   (lit "offset", Demo.mkProperty (VNumber 0) (lit "type: number, min: 0"))].

(** ** The media library ([src/tools/media-management.ts]) *)

Module MediaManagement.

(** The text of a length or a count in a template. *)
Definition dec (n : nat) : jsstring := to_text (VNumber (Z.of_nat n)).

(** [a || d] for an optional string. *)
Definition or_else (a : option jsstring) (d : jsstring) : jsstring :=
  match a with
  | Some s => if nonempty s then s else d
  | None => d
  end.

(** [l.join(", ")]. *)
Fixpoint join (l : list jsstring) : jsstring :=
  match l with
  | [] => []
  | [a] => a
  | a :: rest => a ++ lit ", " ++ join rest
  end.

(** [l.slice(start, end)] for integers. *)
Definition slice {A} (start finish : Z) (l : list A) : list A :=
  let len := Z.of_nat (length l) in
  let norm i := if (i <? 0)%Z then Z.max (len + i) 0 else Z.min i len in
  firstn (Z.to_nat (norm finish - norm start)) (skipn (Z.to_nat (norm start)) l).

Inductive MediaType : Type := image | video.

Definition type_name (t : MediaType) : jsstring :=
  match t with image => lit "image" | video => lit "video" end.

Definition type_toUpperCase (t : MediaType) : jsstring :=
  match t with image => lit "IMAGE" | video => lit "VIDEO" end.

(** The [metadata] the upload stores, lines 59-64. *)
Record Metadata : Type := mkMetadata {
  title : option jsstring;
  description : option jsstring;
  tags : list jsstring;
  category : jsstring
}.

(** [MediaItem], lines 13-22. *)
Record MediaItem : Type := mkItem {
  id : jsstring;
  type : MediaType;
  url : jsstring;
  prompt : jsstring;
  model : jsstring;
  createdAt : jsstring;
  size : nat;
  metadata : Metadata
}.

(** [mediaStorage], a [Map] from ids to items: the entries in the order of
    insertion. *)
Definition Storage : Type := list (jsstring * MediaItem).

Fixpoint get (k : jsstring) (st : Storage) : option MediaItem :=
  match st with
  | [] => None
  | (k', v) :: st' => if Zod.jsstring_eqb k k' then Some v else get k st'
  end.

Definition has (k : jsstring) (st : Storage) : bool :=
  match get k st with Some _ => true | None => false end.

(** [Map.set]: the value of an existing key is replaced where it stands. *)
Fixpoint set (k : jsstring) (v : MediaItem) (st : Storage) : Storage :=
  match st with
  | [] => [(k, v)]
  | (k', v') :: st' =>
      if Zod.jsstring_eqb k k' then (k', v) :: st' else (k', v') :: set k v st'
  end.

Definition delete (k : jsstring) (st : Storage) : Storage :=
  List.filter (fun kv => negb (Zod.jsstring_eqb k (fst kv))) st.

Definition values (st : Storage) : list MediaItem := List.map snd st.

(** The arguments as the schema of [upload_reference_image] (lines 37-43)
    leaves them. *)
Record UploadArgs : Type := mkUploadArgs {
  imageUrl : jsstring;
  upload_title : option jsstring;
  upload_description : option jsstring;
  upload_tags : option (list jsstring);
  upload_category : jsstring
}.

(** The arguments as [MediaManagementSchema] leaves them. *)
Record ManageArgs : Type := mkManageArgs {
  action : jsstring;
  mediaId : option jsstring;
  limit : Z;
  offset : Z
}.

(** The texts of [Date.now()], of the random suffix and of
    [new Date().toISOString()] in [upload_reference_image]. *)
Record UploadClock : Type := mkUploadClock {
  now : jsstring;
  random : jsstring;
  iso : jsstring
}.

(** Line 50. *)
Definition new_mediaId (clock : UploadClock) : jsstring :=
  lit "ref_" ++ now clock ++ lit "_" ++ random clock.

(** Lines 51-65. *)
Definition new_item (args : UploadArgs) (clock : UploadClock) : MediaItem :=
  mkItem (new_mediaId clock) image (imageUrl args)
    (or_else (upload_description args) (lit "Reference image"))
    (lit "uploaded") (iso clock) 0
    (mkMetadata (upload_title args) (upload_description args)
       (match upload_tags args with Some l => l | None => [] end)
       (upload_category args)).

(** Lines 71-86. *)
Definition upload_text (args : UploadArgs) (mediaId : jsstring) : jsstring :=
  [55357; 56548]%N ++ lit " **Reference Image Uploaded Successfully!**"
  ++ [10; 10]%N ++ lit "**Image URL:** " ++ imageUrl args ++ [10]%N
  ++ lit "**Media ID:** " ++ mediaId ++ [10]%N ++ lit "**Title:** "
  ++ or_else (upload_title args) (lit "Untitled")
  ++ [10]%N ++ lit "**Description:** "
  ++ or_else (upload_description args) (lit "No description provided") ++ [10]%N
  ++ lit "**Category:** " ++ upload_category args ++ [10]%N ++ lit "**Tags:** "
  ++ or_else (option_map join (upload_tags args)) (lit "None")
  ++ [10; 10]%N ++ lit "**Features:**" ++ [10]%N
  ++ lit "- Image registered for future use" ++ [10]%N
  ++ lit "- Can be referenced in generation prompts" ++ [10]%N
  ++ lit "- Metadata preserved for organization" ++ [10]%N
  ++ lit "- Compatible with image-to-video conversion" ++ [10; 10]%N
  ++ lit "*Reference image is now available for use in image generation and video creation*".

(** [execute] of [upload_reference_image], lines 44-91: what it does and the
    storage it leaves. *)
Definition upload (args : UploadArgs) (clock : UploadClock) (st : Storage)
    : Exec * Storage :=
  let mediaId := new_mediaId clock in
  (CallsOnProgress (lit "Processing reference image upload...")
     (CallsOnProgress (lit "Reference image uploaded successfully!")
        (Resolves (upload_text args mediaId))),
   set mediaId (new_item args clock) st).

Section Rendering.

(** The text of [new Date(createdAt).toLocaleDateString()] and of
    [(size / 1024 / 1024).toFixed(2)]. *)
Variable toLocaleDateString : jsstring -> jsstring.
Variable megabytes : nat -> jsstring.

Definition size_text (item : MediaItem) (unknown : jsstring) : jsstring :=
  if 0 <? size item then megabytes (size item) ++ lit " MB" else unknown.

(** Lines 117-119. *)
Definition page_start (args : ManageArgs) : Z :=
  if (offset args =? 0)%Z then 0%Z else offset args.

Definition page_end (args : ManageArgs) : Z :=
  (page_start args + (if (limit args =? 0)%Z then 10 else limit args))%Z.

Definition paginatedMedia (args : ManageArgs) (st : Storage) : list MediaItem :=
  slice (page_start args) (page_end args) (values st).

(** Lines 124-133. *)
Definition empty_text : jsstring :=
  [55357; 56538]%N ++ lit " **Media Library Empty**" ++ [10; 10]%N
  ++ lit "No media files found in the library. Start generating images or videos to build your collection!"
  ++ [10; 10]%N ++ lit "**Available Actions:**" ++ [10]%N
  ++ lit "- Generate images using image generation tools" ++ [10]%N
  ++ lit "- Generate videos using video generation tools" ++ [10]%N
  ++ lit "- Upload reference images" ++ [10; 10]%N
  ++ lit "*Use the 'list' action to browse your media collection*".

(** Lines 136-142. *)
Definition list_header (args : ManageArgs) (st : Storage) : jsstring :=
  [55357; 56538]%N ++ lit " **Media Library**" ++ [10; 10]%N
  ++ lit "**Total Items:** " ++ dec (length (values st)) ++ [10]%N
  ++ lit "**Showing:** "
  ++ to_text (VNumber (page_start args + 1)) ++ lit "-"
  ++ to_text (VNumber (Z.min (page_end args) (Z.of_nat (length (values st)))))
  ++ lit " of " ++ dec (length (values st)) ++ [10]%N
  ++ lit "**Filter:** "
  ++ (if Zod.jsstring_eqb (action args) (lit "list") then lit "All media"
      else action args)
  ++ [10; 10]%N.

(** The text the loop adds for the item at [index] of the page, lines
    145-157.  In the last line the array of tags is truthy. *)
Definition list_item (args : ManageArgs) (index : nat) (item : MediaItem) : jsstring :=
  lit "**" ++ to_text (VNumber (page_start args + Z.of_nat index + 1)) ++ lit ". "
  ++ type_toUpperCase (type item) ++ lit " - " ++ id item ++ lit "**"
  ++ [10]%N ++ lit "- URL: " ++ url item ++ [10]%N ++ lit "- Prompt: "
  ++ prompt item
  ++ [10]%N ++ lit "- Model: " ++ model item ++ [10]%N ++ lit "- Created: "
  ++ toLocaleDateString (createdAt item) ++ [10]%N ++ lit "- Size: "
  ++ size_text item (lit "Unknown") ++ [10]%N ++ lit "- Category: "
  ++ or_else (Some (category (metadata item))) (lit "General") ++ [10]%N
  ++ (lit "- Tags: " ++ join (tags (metadata item))) ++ [10; 10]%N.

Fixpoint list_items (args : ManageArgs) (index : nat) (items : list MediaItem)
    : jsstring :=
  match items with
  | [] => []
  | item :: rest => list_item args index item ++ list_items args (S index) rest
  end.

(** Lines 161-163. *)
Definition more_hint (args : ManageArgs) (st : Storage) : jsstring :=
  if (page_end args <? Z.of_nat (length (values st)))%Z
  then lit "*Use offset " ++ to_text (VNumber (page_end args))
       ++ lit " to see more items*"
  else [].

(** [execute] of [list_generated_media], lines 102-170. *)
Definition list_media (args : ManageArgs) (st : Storage) : Exec :=
  CallsOnProgress (lit "Fetching media library...")
    (CallsOnProgress
       (lit "Found " ++ dec (length (values st)) ++ lit " media items")
       (Resolves
          (match paginatedMedia args st with
           | [] => empty_text
           | page =>
               list_header args st ++ list_items args 0 page ++ more_hint args st
           end))).

(** Lines 206-210. *)
Definition download_header (items : list MediaItem) : jsstring :=
  [55357; 56549]%N ++ lit " **Media Download Ready**" ++ [10; 10]%N
  ++ lit "**Items to Download:** " ++ dec (length items) ++ [10; 10]%N.

(** Lines 213-219. *)
Definition download_item (index : nat) (item : MediaItem) : jsstring :=
  lit "**" ++ dec (index + 1) ++ lit ". " ++ type_toUpperCase (type item)
  ++ lit " - " ++ id item ++ lit "**"
  ++ [10]%N ++ lit "- File URL: " ++ url item ++ [10]%N ++ lit "- File Name: "
  ++ id item ++ lit "."
  ++ (match type item with image => lit "jpg" | video => lit "mp4" end)
  ++ [10]%N ++ lit "- Prompt: " ++ prompt item ++ [10]%N
  ++ lit "- Size: " ++ size_text item (lit "Streaming") ++ [10; 10]%N.

Fixpoint download_items (index : nat) (items : list MediaItem) : jsstring :=
  match items with
  | [] => []
  | item :: rest => download_item index item ++ download_items (S index) rest
  end.

(** Lines 222-227. *)
Definition download_footer : jsstring :=
  lit "**Download Methods:**" ++ [10]%N
  ++ lit "1. **Direct Links:** Click the URLs above to download files"
  ++ [10]%N
  ++ lit "2. **API Download:** Use the media IDs with your preferred download tool"
  ++ [10]%N
  ++ lit "3. **Batch Download:** Use tools that support multiple media IDs"
  ++ [10; 10]%N
  ++ lit "**Note:** Links are valid for 24 hours from generation.".

(** The items of lines 185-199, or the error thrown at line 193. *)
Definition to_download (args : ManageArgs) (st : Storage)
    : Completion (list MediaItem) :=
  match mediaId args with
  | Some wanted =>
      if nonempty wanted then
        match get wanted st with
        | Some item => Normal [item]
        | None =>
            Abrupt (new_Error (lit "Media item with ID " ++ wanted ++ lit " not found"))
        end
      else Normal (slice 0 (if (limit args =? 0)%Z then 5 else limit args) (values st))
  | None => Normal (slice 0 (if (limit args =? 0)%Z then 5 else limit args) (values st))
  end.

(** [execute] of [download_media], lines 181-236. *)
Definition download (args : ManageArgs) (st : Storage) : Exec :=
  CallsOnProgress (lit "Preparing media download...")
    match to_download args st with
    | Normal items =>
        CallsOnProgress
          (lit "Downloading " ++ dec (length items) ++ lit " media files...")
          (CallsOnProgress (lit "Download information prepared successfully!")
             (Resolves
                (download_header items ++ download_items 0 items
                 ++ download_footer)))
    | Abrupt error =>
        CallsOnProgress (lit "Error: " ++ message_or (lit "Unknown error") error)
          (Rejects
             (GeminiAPIError
                (lit "Media download failed: "
                 ++ message_or (lit "Unknown error") error)
                None None))
    end.

End Rendering.

(** The arguments of [delete_media]: those of [MediaManagementSchema] and
    the two flags of lines 246-249. *)
Record DeleteArgs : Type := mkDeleteArgs {
  manage : ManageArgs;
  force : bool;
  confirmDelete : bool
}.

Definition truthy_id (args : DeleteArgs) : option jsstring :=
  match mediaId (manage args) with
  | Some wanted => if nonempty wanted then Some wanted else None
  | None => None
  end.

(** Lines 255-265. *)
Definition confirmation_text (args : DeleteArgs) (st : Storage) : jsstring :=
  [9888; 65039]%N ++ lit " **Deletion Confirmation Required**" ++ [10; 10]%N
  ++ lit "To delete media files, you must confirm the action. This operation cannot be undone."
  ++ [10; 10]%N ++ lit "**Please confirm by setting:**" ++ [10]%N
  ++ lit "- confirmDelete: true (to proceed with deletion)" ++ [10; 10]%N
  ++ lit "**Files that would be deleted:**" ++ [10]%N
  ++ (match truthy_id args with
      | Some wanted => lit "- Media ID: " ++ wanted
      | None => lit "- All media items (" ++ dec (length st) ++ lit " files)"
      end)
  ++ [10; 10]%N
  ++ lit "**Alternative:** Use force: true to bypass confirmation (not recommended).".

(** The entries of [deletedItems] and the storage after lines 268-287. *)
Definition deletion (args : DeleteArgs) (st : Storage) : list jsstring * Storage :=
  match truthy_id args with
  | Some wanted =>
      match get wanted st with
      | Some item => ([type_name (type item) ++ lit " - " ++ wanted], delete wanted st)
      | None => ([], st)
      end
  | None =>
      (List.map (fun item => type_name (type item) ++ lit " - " ++ id item)
         (values st),
       [])
  end.

(** [deletedCount] after lines 268-287. *)
Definition deletedCount (args : DeleteArgs) (st : Storage) : nat :=
  match truthy_id args with
  | Some wanted => if has wanted st then 1 else 0
  | None => length (values st)
  end.

(** Lines 291-308. *)
Definition deletion_text (count : nat) (deletedItems : list jsstring)
    (remaining : nat) : jsstring :=
  [55357; 56785; 65039]%N ++ lit " **Media Deletion Complete**" ++ [10; 10]%N
  ++ lit "**Files Deleted:** " ++ dec count ++ [10; 10]%N
  ++ lit "**Deleted Items:**" ++ [10]%N
  ++ concat (List.map (fun item => lit "- " ++ item ++ [10]%N) deletedItems)
  ++ [10; 10]%N ++ lit "**Storage Status:**" ++ [10]%N
  ++ lit "- Remaining Files: " ++ dec remaining ++ [10]%N ++ lit "- Storage Freed: "
  ++ dec count ++ lit " media items" ++ [10; 10]%N
  ++ lit "**Note:** Deleted files cannot be recovered. Use with caution!".

(** [execute] of [delete_media], lines 250-315: what it does and the storage
    it leaves. *)
Definition delete_media (args : DeleteArgs) (st : Storage) : Exec * Storage :=
  if negb (confirmDelete args) && negb (force args) then
    (CallsOnProgress (lit "Processing media deletion request...")
       (Resolves (confirmation_text args st)),
     st)
  else
    let '(deletedItems, st') := deletion args st in
    let count := deletedCount args st in
    (CallsOnProgress (lit "Processing media deletion request...")
       (CallsOnProgress (lit "Deleted " ++ dec count ++ lit " media files")
          (Resolves (deletion_text count deletedItems (length st')))),
     st').

End MediaManagement.

(** ** Scenarios of the media library *)

Definition upload_clock : MediaManagement.UploadClock :=
  MediaManagement.mkUploadClock (lit "1762423200000") (lit "k3j9x0q1z")
    (lit "2025-11-06T10:00:00.000Z").

Definition a_reference_upload : MediaManagement.UploadArgs :=
  MediaManagement.mkUploadArgs (lit "https://example.org/cat.png")
    (Some (lit "Cat")) None (Some [lit "pet"; lit "cat"]) (lit "photo").

(** The library after one upload. *)
Definition one_reference : MediaManagement.Storage :=
  snd (MediaManagement.upload a_reference_upload upload_clock []).

Definition download_the_reference : MediaManagement.ManageArgs :=
  MediaManagement.mkManageArgs (lit "download")
    (Some (MediaManagement.new_mediaId upload_clock)) 10 0.

Definition delete_everything : MediaManagement.DeleteArgs :=
  MediaManagement.mkDeleteArgs
    (MediaManagement.mkManageArgs (lit "delete") None 10 0) false true.

Definition list_past_the_end : MediaManagement.ManageArgs :=
  MediaManagement.mkManageArgs (lit "list") None 10 5.


(** * Properties *)

(** ** Strings *)

Lemma includes_middle (pre x post : jsstring) : includes x (pre ++ x ++ post).
Proof. exists pre, post. reflexivity. Qed.

Lemma includes_suffix (pre x : jsstring) : includes x (pre ++ x).
Proof. exists pre, []. now rewrite app_nil_r. Qed.

Lemma includes_app_r (x pre hay : jsstring) :
  includes x hay -> includes x (pre ++ hay).
Proof.
  intros (a & b & ->). exists (pre ++ a), b. now rewrite <- app_assoc.
Qed.

Lemma includes_app_l (x hay post : jsstring) :
  includes x hay -> includes x (hay ++ post).
Proof.
  intros (a & b & ->). exists a, (b ++ post). now rewrite <- !app_assoc.
Qed.

Lemma nonempty_app_l (a b : jsstring) : nonempty a = true -> nonempty (a ++ b) = true.
Proof. destruct a; [discriminate | reflexivity]. Qed.

Lemma phase_nonempty (toolName : jsstring) (k : nat) :
  nonempty (nth (k mod 5) (progressMessages toolName) []) = true.
Proof.
  pose proof (Nat.mod_upper_bound k 5 ltac:(lia)) as Hlt.
  destruct (k mod 5) as [|[|[|[|[|n]]]]]; try reflexivity; lia.
Qed.

Lemma tick_message_nonempty (toolName : jsstring) (k : nat) (latest : jsstring) :
  nonempty (tick_message toolName k latest) = true.
Proof.
  unfold tick_message.
  change (length (progressMessages toolName)) with 5.
  destruct (nonempty (trim (slice_last 100 latest)));
    [apply nonempty_app_l |]; apply phase_nonempty.
Qed.

Lemma final_message_nonempty (toolName : jsstring) (success : bool) :
  nonempty (final_message toolName success) = true.
Proof. destruct success; reflexivity. Qed.

Arguments progressMessages operationName : simpl never.
Arguments status_marker : simpl never.
Arguments tick_message operationName messageIndex latestOutput : simpl never.
Arguments starting_message operationName : simpl never.
Arguments final_message operationName success : simpl never.

(** ** The filter of [Logger] *)

Lemma levels_recognised key :
  (exists n, LoggerClass.levels key = Some n)
  <-> In key [lit "debug"; lit "info"; lit "warn"; lit "error"].
Proof.
  split.
  - intros (n & Hn). unfold LoggerClass.levels in Hn. cbn [In].
    destruct (bool_decide (key = lit "debug")) eqn:E1;
      [apply bool_decide_eq_true in E1; auto |].
    destruct (bool_decide (key = lit "info")) eqn:E2;
      [apply bool_decide_eq_true in E2; auto |].
    destruct (bool_decide (key = lit "warn")) eqn:E3;
      [apply bool_decide_eq_true in E3; auto |].
    destruct (bool_decide (key = lit "error")) eqn:E4;
      [apply bool_decide_eq_true in E4; auto 6 |].
    discriminate Hn.
  - intros [<- | [<- | [<- | [<- | []]]]]; eexists; reflexivity.
Qed.

Lemma levels_bound key t : LoggerClass.levels key = Some t -> t <= 3.
Proof.
  unfold LoggerClass.levels. intros Hl.
  repeat (destruct (bool_decide _); [injection Hl as <-; lia |]).
  discriminate Hl.
Qed.

(** [shouldLog("error")] holds exactly at a level the record of [shouldLog]
    knows. *)
Lemma shouldLog_error logLevel :
  LoggerClass.shouldLog logLevel LoggerClass.error = true
  <-> In logLevel [lit "debug"; lit "info"; lit "warn"; lit "error"].
Proof.
  rewrite <- levels_recognised. unfold LoggerClass.shouldLog.
  change (LoggerClass.levels (LoggerClass.level_name LoggerClass.error))
    with (Some 3).
  destruct (LoggerClass.levels logLevel) as [t |] eqn:Hl.
  - apply levels_bound, Nat.leb_le in Hl. rewrite Hl. split; eauto.
  - split; [discriminate | intros (n & H); discriminate H].
Qed.

Lemma shouldLog_unknown logLevel level :
  ~ In logLevel [lit "debug"; lit "info"; lit "warn"; lit "error"] ->
  LoggerClass.shouldLog logLevel level = false.
Proof.
  intros Hout. unfold LoggerClass.shouldLog.
  destruct (LoggerClass.levels logLevel) as [t |] eqn:Hl.
  - exfalso. apply Hout. apply levels_recognised. eauto.
  - now destruct (LoggerClass.levels (LoggerClass.level_name level)).
Qed.

(** ** One send *)

Lemma caught_fields (what : jsstring) (n : Notification) (s : State) :
  isProcessing (caught what n s) = isProcessing s
  /\ currentOperationName (caught what n s) = currentOperationName s
  /\ latestOutput (caught what n s) = latestOutput s
  /\ timers (caught what n s) = timers s
  /\ wire (caught what n s) = wire s ++ [n]
  /\ transport (caught what n s) = transport s.
Proof.
  unfold caught. destruct (transport s (length (wire s))); [| now cbn].
  now destruct (LoggerClass.shouldLog _ _).
Qed.

Lemma sendProgressNotification_falsy tok p t m s :
  truthy tok = false -> sendProgressNotification tok p t m s = (Normal tt, s).
Proof. intros H. unfold sendProgressNotification. now rewrite H. Qed.

Lemma sendProgressNotification_truthy tok p t m s :
  truthy tok = true -> nonempty m = true ->
  sendProgressNotification tok p t (Some m) s
  = (Normal tt, caught progress_failure (progress_notification tok p t m) s).
Proof.
  intros Ht Hm. unfold sendProgressNotification, caught, progress_notification.
  rewrite Ht, Hm. cbn. unfold try_catch, server_notification.
  destruct (transport s (length (wire s))); reflexivity.
Qed.


(** ** Start and stop *)

Lemma startProgressUpdates_started toolName tok s :
  startProgressUpdates toolName tok s
  = (Normal (mkProgressData (length (timers s)) tok), started toolName tok s).
Proof.
  unfold startProgressUpdates, started, bind, modify, ret, detach, setInterval.
  destruct (truthy tok) eqn:Ht.
  - rewrite sendProgressNotification_truthy by (auto; reflexivity). cbn.
    destruct (caught_fields progress_failure
                (progress_notification tok 0 None (starting_message toolName))
                (set_latestOutput []
                   (set_currentOperationName toolName (set_isProcessing true s))))
      as (_ & _ & _ & -> & _).
    reflexivity.
  - reflexivity.
Qed.

Lemma started_fields toolName tok s :
  isProcessing (started toolName tok s) = true
  /\ currentOperationName (started toolName tok s) = toolName
  /\ latestOutput (started toolName tok s) = []
  /\ timers (started toolName tok s)
     = timers s ++ [mkInterval toolName tok 0 0 false]
  /\ wire (started toolName tok s)
     = wire s ++ (if truthy tok
                  then [progress_notification tok 0 None (starting_message toolName)]
                  else [])
  /\ transport (started toolName tok s) = transport s.
Proof.
  unfold started. destruct (truthy tok).
  - match goal with |- context [caught ?w ?n ?s0] =>
      destruct (caught_fields w n s0) as (H1 & H2 & H3 & H4 & H5 & H6) end.
    cbn. rewrite H1, H2, H3, H4, H5, H6. now cbn.
  - cbn. now rewrite app_nil_r.
Qed.

Lemma stopProgressUpdates_stopped progressData success s :
  stopProgressUpdates progressData success s
  = (Normal tt, stopped progressData success s).
Proof.
  unfold stopProgressUpdates, stopped, bind, modify, gets, clearInterval, detach, ret.
  cbn. destruct (truthy (dataToken progressData)) eqn:Ht; [| reflexivity].
  rewrite sendProgressNotification_truthy
    by (auto using final_message_nonempty).
  reflexivity.
Qed.

Lemma stopped_fields progressData success s :
  isProcessing (stopped progressData success s) = false
  /\ currentOperationName (stopped progressData success s) = []
  /\ latestOutput (stopped progressData success s) = latestOutput s
  /\ timers (stopped progressData success s)
     = alter mark_cleared (interval progressData) (timers s)
  /\ wire (stopped progressData success s)
     = wire s ++ (if truthy (dataToken progressData)
                  then [progress_notification (dataToken progressData) 100 (Some 100)
                          (final_message (currentOperationName s) success)]
                  else [])
  /\ transport (stopped progressData success s) = transport s.
Proof.
  unfold stopped. destruct (truthy (dataToken progressData)).
  - match goal with |- context [caught ?w ?n ?s0] =>
      destruct (caught_fields w n s0) as (H1 & H2 & H3 & H4 & H5 & H6) end.
    rewrite H1, H2, H3, H4, H5, H6. now cbn.
  - cbn. now rewrite app_nil_r.
Qed.

(** ** One period of an interval *)

Lemma progressInterval_callback_called_back handle env s :
  timers s !! handle = Some env ->
  progressInterval_callback handle s = (Normal tt, called_back handle env s).
Proof.
  intros Hl. unfold progressInterval_callback, called_back, bind, gets.
  rewrite Hl. cbn.
  destruct (isProcessing s) eqn:Hp; cbn.
  - destruct (truthy (intervalToken env)) eqn:Ht; [| reflexivity].
    unfold update_closure, modify. cbn.
    rewrite sendProgressNotification_truthy
      by (auto using tick_message_nonempty).
    reflexivity.
  - reflexivity.
Qed.

Lemma interval_elapses_cleared handle env s :
  timers s !! handle = Some env -> cleared env = true ->
  interval_elapses handle s = (Normal tt, s).
Proof.
  intros Hl Hc. unfold interval_elapses, bind, gets. rewrite Hl. cbn.
  now rewrite Hc.
Qed.

Lemma interval_elapses_armed handle env s :
  timers s !! handle = Some env -> cleared env = false ->
  interval_elapses handle s = (Normal tt, called_back handle env s).
Proof.
  intros Hl Hc. unfold interval_elapses, bind, gets. rewrite Hl. cbn.
  rewrite Hc. unfold detach.
  now rewrite (progressInterval_callback_called_back _ _ _ Hl).
Qed.

Lemma interval_elapses_unknown handle s :
  timers s !! handle = None ->
  interval_elapses handle s = (Normal tt, s).
Proof.
  intros Hl. unfold interval_elapses, bind, gets. now rewrite Hl.
Qed.

Lemma alter_last {A} (f : A -> A) (base : list A) (x : A) :
  alter f (length base) (base ++ [x]) = base ++ [f x].
Proof.
  rewrite alter_app_r_alt by lia. now rewrite Nat.sub_diag.
Qed.

Lemma lookup_last {A} (base : list A) (x : A) :
  (base ++ [x]) !! length base = Some x.
Proof. now apply list_lookup_middle. Qed.

(** A period of the invocation's own interval while the invocation runs. *)
Lemma called_back_ticking base toolName tok mi pc s :
  timers s = base ++ [mkInterval toolName tok mi pc false] ->
  isProcessing s = true -> truthy tok = true ->
  let s' := called_back (length base) (mkInterval toolName tok mi pc false) s in
  isProcessing s' = true
  /\ currentOperationName s' = currentOperationName s
  /\ latestOutput s' = latestOutput s
  /\ timers s' = base ++ [mkInterval toolName tok (S mi) (S pc) false]
  /\ wire s' = wire s ++ [progress_notification tok (S pc) None
                            (tick_message toolName mi (latestOutput s))]
  /\ transport s' = transport s.
Proof.
  intros Ht Hp Htok. unfold called_back. cbn [intervalToken operationName
    messageIndex progressCount]. rewrite Hp, Htok. cbn [andb].
  match goal with |- context [caught ?w ?n ?s0] =>
    destruct (caught_fields w n s0) as (H1 & H2 & H3 & H4 & H5 & H6) end.
  cbn zeta. cbn [isProcessing currentOperationName latestOutput timers wire
    transport set_timers].
  rewrite H1, H2, H3, H4, H5, H6. cbn [isProcessing currentOperationName
    latestOutput timers wire transport set_timers].
  rewrite Ht, !alter_last. now cbn.
Qed.

Lemma called_back_silent base toolName tok mi pc s :
  timers s = base ++ [mkInterval toolName tok mi pc false] ->
  isProcessing s = true -> truthy tok = false ->
  called_back (length base) (mkInterval toolName tok mi pc false) s = s.
Proof.
  intros Ht Hp Htok. unfold called_back. cbn [intervalToken].
  now rewrite Hp, Htok.
Qed.

(** ** The execution awaited by the handler *)

Lemma await_execution_ticking toolName tok base run :
  truthy tok = true ->
  forall k latest s,
    timers s = base ++ [mkInterval toolName tok k k false] ->
    isProcessing s = true ->
    latestOutput s = latest ->
    exists s',
      await_execution (length base) run s = (settles run, s')
      /\ isProcessing s' = true
      /\ currentOperationName s' = currentOperationName s
      /\ latestOutput s' = last_output latest run
      /\ timers s'
         = base ++ [mkInterval toolName tok (k + suspensions run)
                      (k + suspensions run) false]
      /\ wire s' = wire s ++ ticks toolName tok k latest run
      /\ transport s' = transport s.
Proof.
  intros Htok. induction run as [result | error | newOutput rest IH | rest IH];
    intros k latest s Ht Hp Hl.
  - exists s. cbn. rewrite Nat.add_0_r, app_nil_r. auto 10.
  - exists s. cbn. rewrite Nat.add_0_r, app_nil_r. auto 10.
  - destruct (IH k newOutput (set_latestOutput newOutput s) Ht Hp eq_refl)
      as (s' & He & H1 & H2 & H3 & H4 & H5 & H6).
    exists s'. cbn [await_execution settles last_output suspensions ticks].
    unfold bind, onProgress, modify. now rewrite He.
  - pose proof (called_back_ticking base toolName tok k k s Ht Hp Htok)
      as (C1 & C2 & C3 & C4 & C5 & C6).
    set (s1 := called_back (length base) (mkInterval toolName tok k k false) s) in *.
    destruct (IH (S k) latest s1 C4 C1 (eq_trans C3 Hl))
      as (s' & He & H1 & H2 & H3 & H4 & H5 & H6).
    exists s'. cbn [await_execution settles last_output suspensions ticks].
    unfold bind.
    rewrite (interval_elapses_armed (length base)
               (mkInterval toolName tok k k false) s)
      by (rewrite ?Ht; auto using lookup_last).
    fold s1. rewrite He.
    rewrite H2, C2, H4, H5, C5, H6, C6, Hl, <- app_assoc.
    replace (k + S (suspensions rest)) with (S k + suspensions rest) by lia.
    auto 10.
Qed.

Lemma await_execution_silent toolName tok base run :
  truthy tok = false ->
  forall k latest s,
    timers s = base ++ [mkInterval toolName tok k k false] ->
    isProcessing s = true ->
    latestOutput s = latest ->
    exists s',
      await_execution (length base) run s = (settles run, s')
      /\ isProcessing s' = true
      /\ currentOperationName s' = currentOperationName s
      /\ latestOutput s' = last_output latest run
      /\ timers s' = timers s
      /\ wire s' = wire s
      /\ transport s' = transport s.
Proof.
  intros Htok. induction run as [result | error | newOutput rest IH | rest IH];
    intros k latest s Ht Hp Hl.
  - exists s. cbn. auto 10.
  - exists s. cbn. auto 10.
  - destruct (IH k newOutput (set_latestOutput newOutput s) Ht Hp eq_refl)
      as (s' & He & H1 & H2 & H3 & H4 & H5 & H6).
    exists s'. cbn [await_execution settles last_output].
    unfold bind, onProgress, modify. now rewrite He.
  - destruct (IH k latest s Ht Hp Hl)
      as (s' & He & H1 & H2 & H3 & H4 & H5 & H6).
    exists s'. cbn [await_execution settles last_output].
    unfold bind.
    rewrite (interval_elapses_armed (length base)
               (mkInterval toolName tok k k false) s)
      by (rewrite ?Ht; auto using lookup_last).
    rewrite (called_back_silent base toolName tok k k s Ht Hp Htok).
    now rewrite He.
Qed.

(** ** The handler on a registered operation *)

Section HandlerFacts.

Variable toolExists : jsstring -> bool.
Variable executeTool : jsstring -> ToolArguments -> Exec.

Lemma handler_unregistered request s :
  toolExists (name request) = false ->
  handler toolExists executeTool request s
  = (Abrupt (new_Error (lit "Unknown tool: " ++ name request)), s).
Proof. intros H. unfold handler. now rewrite H. Qed.

Lemma handler_registered request s :
  toolExists (name request) = true ->
  exists s',
    handler toolExists executeTool request s
    = (Normal (result_of (name request) (settles (execution_of executeTool request))), s')
    /\ isProcessing s' = false
    /\ currentOperationName s' = []
    /\ latestOutput s' = last_output [] (execution_of executeTool request)
    /\ timers s'
       = timers s
         ++ [mkInterval (name request) (meta_progressToken request)
               (ticks_sent (meta_progressToken request)
                  (execution_of executeTool request))
               (ticks_sent (meta_progressToken request)
                  (execution_of executeTool request))
               true]
    /\ wire s'
       = wire s ++ channel_trace (name request) (meta_progressToken request)
                     (execution_of executeTool request)
    /\ transport s' = transport s.
Proof.
  intros Hex. unfold handler, execution_of. rewrite Hex.
  set (toolName := name request). set (tok := meta_progressToken request).
  set (run := executeTool toolName (default [] (arguments request))).
  unfold bind at 1. rewrite startProgressUpdates_started.
  cbn [interval]. unfold try_catch, bind at 1.
  unfold Logger.toolInvocation, Logger.print, modify at 1.
  set (s1 := if LoggerClass.shouldLog _ _ then _ else _).
  assert (S : isProcessing s1 = true
              /\ currentOperationName s1 = toolName
              /\ latestOutput s1 = []
              /\ timers s1
                 = timers s ++ [mkInterval toolName tok 0 0 false]
              /\ wire s1
                 = wire s ++ (if truthy tok
                              then [progress_notification tok 0 None
                                      (starting_message toolName)]
                              else [])
              /\ transport s1 = transport s).
  { destruct (started_fields toolName tok s) as (S1 & S2 & S3 & S4 & S5 & S6).
    subst s1. destruct (LoggerClass.shouldLog _ _); cbn; auto 10. }
  destruct S as (S1 & S2 & S3 & S4 & S5 & S6). clearbody s1.
  assert (A : exists s2,
             await_execution (length (timers s)) run s1 = (settles run, s2)
             /\ isProcessing s2 = true
             /\ currentOperationName s2 = toolName
             /\ latestOutput s2 = last_output [] run
             /\ timers s2 = timers s ++ [mkInterval toolName tok
                                           (ticks_sent tok run) (ticks_sent tok run) false]
             /\ wire s2 = wire s1 ++ (if truthy tok then ticks toolName tok 0 [] run else [])
             /\ transport s2 = transport s).
  { unfold ticks_sent. destruct (truthy tok) eqn:Htok.
    - destruct (await_execution_ticking toolName tok (timers s) run Htok 0 [] s1
                  S4 S1 S3) as (s2 & He & H1 & H2 & H3 & H4 & H5 & H6).
      exists s2. rewrite H2, H6. cbn in H4. auto 10.
    - destruct (await_execution_silent toolName tok (timers s) run Htok 0 [] s1
                  S4 S1 S3) as (s2 & He & H1 & H2 & H3 & H4 & H5 & H6).
      exists s2. rewrite H2, H4, H5, H6, app_nil_r. auto 10. }
  destruct A as (s2 & He & H1 & H2 & H3 & H4 & H5 & H6).
  unfold bind. rewrite He.
  assert (W : wire s1 = wire s ++ (if truthy tok
              then [progress_notification tok 0 None (starting_message toolName)]
              else [])) by exact S5.
  destruct (stopped_fields (mkProgressData (length (timers s)) tok)
              (succeeded (settles run)) s2)
    as (T1 & T2 & T3 & T4 & T5 & T6).
  cbn [interval dataToken] in T4, T5.
  rewrite H4, alter_last in T4. rewrite H5, W, H2 in T5.
  assert (T5' : wire (stopped (mkProgressData (length (timers s)) tok)
                        (succeeded (settles run)) s2)
                = wire s ++ channel_trace toolName tok run).
  { rewrite T5. unfold channel_trace. destruct (truthy tok).
    - now rewrite <- !app_assoc.
    - now rewrite !app_nil_r. }
  destruct (settles run) as [result | error] eqn:Hs.
  - rewrite stopProgressUpdates_stopped.
    unfold Logger.toolSuccess, Logger.print, modify, ret.
    eexists. split; [reflexivity |].
    cbn [succeeded] in *.
    destruct (LoggerClass.shouldLog _ _);
      cbn [set_logged isProcessing currentOperationName latestOutput timers
           wire transport];
      rewrite T1, T2, T3, T4, T5', T6, H3, H6; auto 10.
  - rewrite stopProgressUpdates_stopped.
    unfold Logger.error, Logger.print, modify, ret.
    eexists. split; [reflexivity |].
    cbn [succeeded] in *.
    destruct (LoggerClass.shouldLog _ _);
      cbn [set_logged isProcessing currentOperationName latestOutput timers
           wire transport];
      rewrite T1, T2, T3, T4, T5', T6, H3, H6; auto 10.
Qed.

End HandlerFacts.

(** * The claims *)

(** ** Unknown operations *)

(** C1 as stated does not hold: on a name that is not registered the handler
    of [index.ts] returns no result at all, so none tagged [isError]. *)
Lemma unknown_tool_has_no_result :
  ~ exists r s',
      handler (Registry.toolExists (one_tool two_periods))
        (Registry.executeTool (one_tool two_periods)) missing_request initial
      = (Normal r, s')
      /\ isError r = true.
Proof. intros (r & s' & H & _). vm_compute in H. discriminate H. Qed.

(** C1 (amended).  For every operation name that is not registered, the
    [tools/call] handler of [index.ts] raises [Error("Unknown tool: " + name)]
    and leaves the state as it was (no progress channel is started, nothing
    is sent), and [handleRequest] of the demo server returns
    [{ error: "Unknown tool: " + name }]; the message contains the name. *)
Theorem unknown_tool_raises toolExists executeTool request s srv args :
  toolExists (name request) = false ->
  Demo.lookup_tool (name request) srv = None ->
  handler toolExists executeTool request s
  = (Abrupt (new_Error (lit "Unknown tool: " ++ name request)), s)
  /\ Demo.handleRequest srv (Demo.mkRequest (lit "tools/call") (name request) args)
     = Demo.ErrorReply (lit "Unknown tool: " ++ name request)
  /\ includes (name request) (lit "Unknown tool: " ++ name request).
Proof.
  intros Hex Hfind. split; [| split].
  - now apply handler_unregistered.
  - unfold Demo.handleRequest. cbn [Demo.method Demo.params_name].
    replace (Zod.jsstring_eqb (lit "tools/call") (lit "tools/list")) with false
      by reflexivity.
    replace (Zod.jsstring_eqb (lit "tools/call") (lit "tools/call")) with true
      by reflexivity.
    now rewrite Hfind.
  - apply includes_suffix.
Qed.

Lemma unknown_tool_raises_witness :
  Registry.toolExists (one_tool two_periods) (name missing_request) = false
  /\ Demo.lookup_tool (name missing_request) empty_demo = None
  /\ handler (Registry.toolExists (one_tool two_periods))
       (Registry.executeTool (one_tool two_periods)) missing_request initial
     = (Abrupt (new_Error (lit "Unknown tool: " ++ name missing_request)), initial)
  /\ Demo.handleRequest empty_demo
       (Demo.mkRequest (lit "tools/call") (name missing_request) None)
     = Demo.ErrorReply (lit "Unknown tool: " ++ name missing_request)
  /\ includes (name missing_request) (lit "Unknown tool: " ++ name missing_request).
Proof.
  split; [reflexivity | split; [reflexivity |]].
  apply (unknown_tool_raises (Registry.toolExists (one_tool two_periods))
           (Registry.executeTool (one_tool two_periods)) missing_request initial
           empty_demo None); reflexivity.
Defined.

(** ** Faults of an execution *)

Lemma result_of_fault toolName error :
  result_of toolName (Abrupt error)
  = mkResult (error_prefix toolName ++ errorMessage_of error) true.
Proof. unfold result_of, error_prefix. now rewrite <- !app_assoc. Qed.

(** C3.  When the execution of a registered operation rejects, the handler
    does not raise: it returns a result tagged [isError] whose text is
    the prefix naming the operation followed by the message of the cause: message and
    code for a [GeminiAPIError] that carries a code, the message for any
    other [Error], and [Unknown error occurred] for a value that is not an
    [Error]. *)
Theorem execution_faults_are_reported toolExists executeTool request s error :
  toolExists (name request) = true ->
  settles (executeTool (name request) (default [] (arguments request)))
  = Abrupt error ->
  exists r s',
    handler toolExists executeTool request s = (Normal r, s')
    /\ isError r = true
    /\ match error with
       | GeminiAPIError message (Some code) _ =>
           text r = error_prefix (name request) ++ message ++ lit " (" ++ code ++ lit ")"
           /\ includes message (text r) /\ includes code (text r)
       | GeminiAPIError message None _ =>
           text r = error_prefix (name request) ++ message ++ lit " (undefined)"
           /\ includes message (text r)
       | OtherError _ message =>
           text r = error_prefix (name request) ++ message
           /\ includes message (text r)
       | NotAnError _ =>
           text r = error_prefix (name request) ++ lit "Unknown error occurred"
       end.
Proof.
  intros Hex Hrej.
  destruct (handler_registered toolExists executeTool request s Hex)
    as (s' & He & _).
  unfold execution_of in He. rewrite Hrej, result_of_fault in He.
  eexists _, s'. split; [exact He |]. split; [reflexivity |].
  cbn [text]. destruct error as [message [code |] statusCode | n message | v];
    cbn [errorMessage_of template].
  - split; [reflexivity |]. split.
    + apply includes_app_r, includes_app_l. exists [], []. now rewrite app_nil_r.
    + apply includes_app_r, includes_app_r, includes_app_r, includes_app_l.
      exists [], []. now rewrite app_nil_r.
  - split; [reflexivity |].
    apply includes_app_r, includes_app_l. exists [], []. now rewrite app_nil_r.
  - split; [reflexivity |]. apply includes_suffix.
  - reflexivity.
Qed.

Lemma execution_faults_are_reported_witness :
  Registry.toolExists (one_tool boom) (name cat_request) = true
  /\ settles (Registry.executeTool (one_tool boom) (name cat_request)
                (default [] (arguments cat_request)))
     = Abrupt (GeminiAPIError (lit "Nano Banana image generation failed: boom")
                 None None)
  /\ exists r s',
       handler (Registry.toolExists (one_tool boom))
         (Registry.executeTool (one_tool boom)) cat_request initial
       = (Normal r, s')
       /\ isError r = true
       /\ (text r = error_prefix (name cat_request)
                    ++ lit "Nano Banana image generation failed: boom"
                    ++ lit " (undefined)"
           /\ includes (lit "Nano Banana image generation failed: boom") (text r)).
Proof.
  split; [reflexivity | split; [reflexivity |]].
  apply (execution_faults_are_reported (Registry.toolExists (one_tool boom))
           (Registry.executeTool (one_tool boom)) cat_request initial
           (GeminiAPIError (lit "Nano Banana image generation failed: boom")
              None None)); reflexivity.
Defined.

(** The scenario of the specification: an operation whose execution rejects
    with [Error("boom")]. *)
Example boom_is_reported :
  exists s',
    handler (fun _ => true) (fun _ _ => Rejects (new_Error (lit "boom")))
      (mkRequest (lit "echo") None NoToken) initial
    = (Normal (mkResult (error_prefix (lit "echo") ++ lit "boom") true), s').
Proof. eexists. vm_compute. reflexivity. Qed.

(** ** Invalid arguments *)

Lemma parse_fields_issues schema raw f :
  In f schema -> fst (Zod.parse_field f raw) <> [] ->
  fst (Zod.parse_fields schema raw) <> [].
Proof.
  induction schema as [| g schema IH]; intros Hin Hne; [destruct Hin |].
  cbn [Zod.parse_fields].
  destruct (Zod.parse_field g raw) as [i o] eqn:Hg.
  destruct (Zod.parse_fields schema raw) as [i' o'] eqn:Hrest.
  cbn [fst] in *. destruct Hin as [-> | Hin].
  - rewrite Hg in Hne. cbn [fst] in Hne. destruct i; [congruence | discriminate].
  - specialize (IH Hin Hne). destruct i'; [congruence |].
    destruct i; discriminate.
Qed.

Lemma violates_fails schema raw :
  violates schema raw ->
  exists issue issues, Zod.safeParse schema raw = inl (issue :: issues).
Proof.
  intros (f & Hin & Hne). pose proof (parse_fields_issues schema raw f Hin Hne) as H.
  unfold Zod.safeParse. destruct (Zod.parse_fields schema raw) as [[| i l] o].
  - now destruct H.
  - now exists i, l.
Qed.

(** The constraints of the [prompt] of [ImageGenerationSchema]. *)
Lemma prompt_length_violates raw p :
  Zod.property (lit "prompt") raw = VString p ->
  length p < 1 \/ 2000 < length p ->
  violates ImageGenerationSchema raw.
Proof.
  intros Hp Hlen.
  exists (Zod.mkField (lit "prompt")
            (Zod.ZString (Some (1, Some (lit "Prompt is required")))
                         (Some (2000, Some (lit "Prompt too long"))))
            Zod.Required).
  split; [now left |].
  unfold Zod.parse_field. cbn [Zod.key Zod.presence Zod.type]. rewrite Hp.
  cbn [fst Zod.check Zod.below Zod.above].
  destruct Hlen as [Hlt | Hgt].
  - apply Nat.ltb_lt in Hlt. rewrite Hlt. discriminate.
  - apply Nat.ltb_lt in Hgt. rewrite Hgt.
    destruct (length p <? 1); discriminate.
Qed.

(** The enumeration of its [style]. *)
Lemma style_enum_violates raw v :
  Zod.property (lit "style") raw = VString v ->
  ~ In v [lit "natural"; lit "artistic"; lit "photorealistic"; lit "cartoon";
          lit "anime"] ->
  violates ImageGenerationSchema raw.
Proof.
  intros Hp Hout.
  exists (Zod.mkField (lit "style")
            (Zod.ZEnum [lit "natural"; lit "artistic"; lit "photorealistic";
                        lit "cartoon"; lit "anime"])
            (Zod.Default (VString (lit "natural")))).
  split; [cbn; tauto |].
  unfold Zod.parse_field. cbn [Zod.key Zod.presence Zod.type]. rewrite Hp.
  cbn [fst Zod.check].
  destruct (existsb _ _) eqn:He; [| discriminate].
  apply existsb_exists in He as (x & Hin & Heq).
  unfold Zod.jsstring_eqb in Heq. apply bool_decide_eq_true in Heq. now subst.
Qed.

(** C2 as stated does not hold: the handler starts the progress channel
    before the arguments are validated, so an invocation with an empty
    prompt creates an interval and sends notifications. *)
Lemma invalid_arguments_start_the_channel :
  let s' := snd (handler (Registry.toolExists (one_tool two_periods))
                   (Registry.executeTool (one_tool two_periods))
                   empty_prompt_request initial) in
  ~ (timers s' = timers initial /\ wire s' = wire initial).
Proof. intros s' [H _]. vm_compute in H. discriminate H. Qed.

(** C2 (amended).  For every registered operation and raw arguments that
    break a constraint of its schema, [executeTool] rejects with the
    validation error without calling [execute] (what it does is the same for
    every [execute] function the operation could have), and the handler
    returns a result tagged [isError] that carries the issues; the progress
    channel is started before the validation and stopped with a failure
    when it fails: one interval is created and cleared, and with a truthy
    token the starting and the failure notifications are sent. *)
Theorem invalid_arguments_are_rejected registry tool n raw tok s :
  Registry.resolve n registry = Some tool ->
  violates (Registry.zodSchema tool) raw ->
  exists issues s',
    Zod.safeParse (Registry.zodSchema tool) raw = inl issues
    /\ (forall execute',
          Registry.executeTool
            [Registry.mkTool n (Registry.description tool) (Registry.category tool)
               (Registry.zodSchema tool) execute'] n raw
          = Registry.executeTool registry n raw)
    /\ Registry.executeTool registry n raw = Rejects (Zod.ZodError issues)
    /\ handler (Registry.toolExists registry) (Registry.executeTool registry)
         (mkRequest n (Some raw) tok) s
       = (Normal (mkResult
                    (error_prefix n ++ errorMessage_of (Zod.ZodError issues))
                    true), s')
    /\ isProcessing s' = false
    /\ timers s' = timers s ++ [mkInterval n tok 0 0 true]
    /\ wire s'
       = wire s
         ++ (if truthy tok
             then [progress_notification tok 0 None (starting_message n);
                   progress_notification tok 100 (Some 100) (final_message n false)]
             else []).
Proof.
  intros Hres Hviol.
  destruct (violates_fails _ _ Hviol) as (i & l & Hparse).
  assert (Hrun : Registry.executeTool registry n raw
                 = Rejects (Zod.ZodError (i :: l))).
  { unfold Registry.executeTool. now rewrite Hres, Hparse. }
  assert (Hex : Registry.toolExists registry n = true).
  { unfold Registry.toolExists. now rewrite Hres. }
  destruct (handler_registered (Registry.toolExists registry)
              (Registry.executeTool registry) (mkRequest n (Some raw) tok) s Hex)
    as (s' & He & H1 & _ & _ & H4 & H5 & _).
  unfold execution_of in *. cbn [name arguments meta_progressToken default] in *.
  unfold id in *. rewrite Hrun in He, H4, H5.
  cbn [settles] in He. rewrite result_of_fault in He.
  exists (i :: l), s'. split; [exact Hparse |]. split.
  { intros execute'. rewrite Hrun. unfold Registry.executeTool, Registry.resolve.
    cbn [find]. unfold Registry.named, Zod.jsstring_eqb. cbn [Registry.name].
    rewrite bool_decide_eq_true_2 by reflexivity.
    cbn [Registry.zodSchema]. now rewrite Hparse. }
  split; [exact Hrun |]. split; [exact He |]. split; [exact H1 |]. split.
  - rewrite H4. unfold ticks_sent. cbn [suspensions]. now destruct (truthy tok).
  - rewrite H5. unfold channel_trace. now destruct (truthy tok).
Qed.

Lemma invalid_arguments_are_rejected_witness :
  Registry.resolve (lit "generate_image_nano_banana") (one_tool two_periods)
  = Some (ImageGeneration.generateImageNanoBanana two_periods)
  /\ violates ImageGenerationSchema [(lit "prompt", VString [])]
  /\ exists issues s',
       Zod.safeParse ImageGenerationSchema [(lit "prompt", VString [])] = inl issues
       /\ handler (Registry.toolExists (one_tool two_periods))
            (Registry.executeTool (one_tool two_periods)) empty_prompt_request
            initial
          = (Normal (mkResult
                       (error_prefix (lit "generate_image_nano_banana")
                        ++ errorMessage_of (Zod.ZodError issues))
                       true), s')
       /\ isProcessing s' = false.
Proof.
  assert (V : violates ImageGenerationSchema [(lit "prompt", VString [])]).
  { apply (prompt_length_violates _ []); [reflexivity | left; cbn; lia]. }
  split; [reflexivity | split; [exact V |]].
  destruct (invalid_arguments_are_rejected (one_tool two_periods)
              (ImageGeneration.generateImageNanoBanana two_periods)
              (lit "generate_image_nano_banana") [(lit "prompt", VString [])]
              (StringToken (lit "progress-1")) initial eq_refl V)
    as (issues & s' & H1 & _ & _ & H4 & H5 & _).
  exists issues, s'. auto.
Defined.

(** ** The ticks of one invocation *)

Lemma ticks_length toolName tok run :
  forall k latest, length (ticks toolName tok k latest run) = suspensions run.
Proof.
  induction run as [| | newOutput rest IH | rest IH]; intros k latest;
    cbn [ticks suspensions length]; auto.
Qed.

Lemma ticks_lookup toolName tok run :
  forall k latest i,
    i < suspensions run ->
    ticks toolName tok k latest run !! i
    = Some (progress_notification tok (S (k + i)) None
              (tick_message toolName (k + i) (status_at (S i) latest run))).
Proof.
  induction run as [| | newOutput rest IH | rest IH]; intros k latest i Hi;
    cbn [ticks suspensions status_at] in *; try lia.
  - now apply IH.
  - destruct i as [| i].
    + now rewrite Nat.add_0_r.
    + cbn [lookup list_lookup]. rewrite IH by lia.
      now replace (S k + i) with (k + S i) by lia.
Qed.

(** Periods of a cleared interval change nothing. *)
Lemma steps_after_clear handle env later :
  cleared env = true ->
  forall s, timers s !! handle = Some env ->
            steps (repeat (Elapses handle) later) s = s.
Proof.
  intros Hc. induction later as [| later IH]; intros s Hl; [reflexivity |].
  cbn [repeat steps step]. rewrite (interval_elapses_cleared handle env s Hl Hc).
  now apply IH.
Qed.

(** C4 as stated does not hold for every correlation token: with the token
    [0] no final tick is sent (nor any other). *)
Lemma zero_token_gets_no_final_tick :
  let s' := snd (handler (Registry.toolExists (one_tool two_periods))
                   (Registry.executeTool (one_tool two_periods))
                   zero_token_request initial) in
  ~ exists m,
      In (progress_notification (NumberToken 0) 100 (Some 100) m) (wire s').
Proof. intros s' (m & H). vm_compute in H. exact H. Qed.

(** C4 (amended).  For every invocation of a registered operation whose
    token is truthy (a non-empty string or a number other than zero), run
    from its start to its stop with no step of another invocation in
    between: what it sends is the starting tick, one intermediate tick per
    period that elapsed before the execution settled (tick [i] has progress
    [i] and no total), and one final tick with progress = total = 100 and
    the success phrase when the execution resolved, the failure phrase when
    it rejected; the stop clears the interval, and periods that elapse after
    it change nothing. *)
Theorem channel_of_an_invocation toolExists executeTool request s later :
  toolExists (name request) = true ->
  truthy (meta_progressToken request) = true ->
  let toolName := name request in
  let tok := meta_progressToken request in
  let run := execution_of executeTool request in
  let s' := snd (handler toolExists executeTool request s) in
  wire s'
  = wire s
    ++ [progress_notification tok 0 None (starting_message toolName)]
    ++ ticks toolName tok 0 [] run
    ++ [progress_notification tok 100 (Some 100)
          (final_message toolName (succeeded (settles run)))]
  /\ length (ticks toolName tok 0 [] run) = suspensions run
  /\ (forall i, i < suspensions run ->
        exists m, ticks toolName tok 0 [] run !! i
                  = Some (progress_notification tok (S i) None m))
  /\ cleared <$> timers s' !! length (timers s) = Some true
  /\ steps (repeat (Elapses (length (timers s))) later) s' = s'.
Proof.
  intros Hex Htok toolName tok run s'.
  destruct (handler_registered toolExists executeTool request s Hex)
    as (s1 & He & _ & _ & _ & H4 & H5 & _).
  assert (Hs : s' = s1) by (unfold s'; now rewrite He). rewrite Hs.
  fold toolName tok run in H4, H5.
  split.
  { rewrite H5. unfold channel_trace, tok. now rewrite Htok. }
  split; [apply ticks_length |]. split.
  { intros i Hi. eexists. now rewrite ticks_lookup. }
  assert (Hl : timers s1 !! length (timers s)
               = Some (mkInterval toolName tok (ticks_sent tok run)
                         (ticks_sent tok run) true))
    by (rewrite H4; apply lookup_last).
  split; [now rewrite Hl |].
  exact (steps_after_clear (length (timers s))
           (mkInterval toolName tok (ticks_sent tok run) (ticks_sent tok run) true)
           later eq_refl s1 Hl).
Qed.

Lemma channel_of_an_invocation_witness :
  Registry.toolExists (one_tool two_periods) (name cat_request) = true
  /\ truthy (meta_progressToken cat_request) = true
  /\ length (wire (snd (handler (Registry.toolExists (one_tool two_periods))
                          (Registry.executeTool (one_tool two_periods))
                          cat_request initial)))
     = 4.
Proof.
  split; [reflexivity | split; [reflexivity |]].
  destruct (channel_of_an_invocation
              (Registry.toolExists (one_tool two_periods))
              (Registry.executeTool (one_tool two_periods))
              cat_request initial 3 eq_refl eq_refl) as (H & _).
  rewrite H. reflexivity.
Defined.

(** ** The message of a tick *)

(** C6 as stated does not hold: the excerpt is trimmed, so the first tick of
    [trailing_space] does not end with the last characters of the status. *)
Lemma excerpt_is_trimmed :
  let s' := snd (handler (fun _ => true) (fun _ _ => trailing_space)
                   cat_request initial) in
  exists m,
    wire s' !! 1 = Some (progress_notification (meta_progressToken cat_request)
                           1 None m)
    /\ ~ exists sep,
           m = nth 0 (progressMessages (name cat_request)) []
               ++ sep ++ slice_last 100 (lit "Rendering ").
Proof.
  intros s'. eexists. split; [vm_compute; reflexivity |].
  intros (sep & H). apply (f_equal (@rev N)) in H.
  rewrite !rev_app_distr in H. vm_compute in H. discriminate H.
Qed.

(** C6 (amended).  For every invocation of a registered operation with a
    truthy token, run from its start to its stop with no step of another
    invocation in between ([latestOutput] and [isProcessing] are shared by
    all invocations), the message of intermediate tick [n] is the phase
    message at index [(n - 1) mod 5] of the five-element list; when the last
    100 code units of the latest status pushed through [onProgress], trimmed
    of surrounding white space, are not empty, they are appended to it after
    the marker line, and the tick carries the phase message alone otherwise
    (no status pushed, or only white space left). *)
Theorem tick_messages toolExists executeTool request s n :
  toolExists (name request) = true ->
  truthy (meta_progressToken request) = true ->
  1 <= n <= suspensions (execution_of executeTool request) ->
  let toolName := name request in
  let tok := meta_progressToken request in
  let run := execution_of executeTool request in
  let s' := snd (handler toolExists executeTool request s) in
  let phase := nth ((n - 1) mod 5) (progressMessages toolName) [] in
  let excerpt := trim (slice_last 100 (status_at n [] run)) in
  length (progressMessages toolName) = 5
  /\ wire s' !! (length (wire s) + n)
     = Some (progress_notification tok n None
               (if nonempty excerpt then phase ++ status_marker ++ excerpt
                else phase))
  /\ (status_at n [] run = [] ->
      wire s' !! (length (wire s) + n)
      = Some (progress_notification tok n None phase)).
Proof.
  intros Hex Htok Hn toolName tok run s' phase excerpt.
  destruct (handler_registered toolExists executeTool request s Hex)
    as (s1 & He & _ & _ & _ & _ & H5 & _).
  assert (Hs : s' = s1) by (unfold s'; now rewrite He).
  fold run in Hn.
  fold toolName tok run in H5. unfold channel_trace in H5.
  fold tok in Htok. rewrite Htok in H5.
  assert (Hl : wire s' !! (length (wire s) + n)
               = Some (progress_notification tok n None
                         (tick_message toolName (n - 1) (status_at n [] run)))).
  { rewrite Hs, H5. rewrite lookup_app_r by lia.
    rewrite lookup_app_r by (cbn [length]; lia).
    cbn [length].
    replace (length (wire s) + n - length (wire s) - 1) with (n - 1) by lia.
    rewrite lookup_app_l by (rewrite ticks_length; lia).
    rewrite ticks_lookup by lia.
    cbn [Nat.add]. now replace (S (n - 1)) with n by lia. }
  split; [reflexivity |]. split.
  - exact Hl.
  - intros Hnone. rewrite Hl. unfold tick_message. now rewrite Hnone.
Qed.

Lemma tick_messages_witness :
  Registry.toolExists (one_tool two_periods) (name cat_request) = true
  /\ truthy (meta_progressToken cat_request) = true
  /\ 1 <= 2 <= suspensions (execution_of
                              (Registry.executeTool (one_tool two_periods))
                              cat_request)
  /\ wire (snd (handler (Registry.toolExists (one_tool two_periods))
                  (Registry.executeTool (one_tool two_periods))
                  cat_request initial)) !! 2
     = Some (progress_notification (meta_progressToken cat_request) 2 None
               (nth 1 (progressMessages (name cat_request)) []
                ++ status_marker
                ++ lit "Preparing image generation request...")).
Proof.
  split; [reflexivity | split; [reflexivity | split; [vm_compute; lia |]]].
  destruct (tick_messages (Registry.toolExists (one_tool two_periods))
              (Registry.executeTool (one_tool two_periods))
              cat_request initial 2 eq_refl eq_refl) as (_ & H & _).
  - vm_compute; lia.
  - exact H.
Defined.

(** ** Invocations without a token *)

(** C7.  When the caller supplied no token, [sendProgressNotification] does
    nothing, and the invocation sends nothing at any point: not at the
    start, not when a period of its interval elapses, not at the stop, so
    the handler leaves the wire as it found it whatever the operation does.
    The bookkeeping is kept all the same: the start sets [isProcessing] and
    the name of the operation and creates the interval, and the stop resets
    [isProcessing] and clears the interval. *)
Theorem no_token_no_notification toolExists executeTool n args s p t m success :
  let request := mkRequest n args NoToken in
  let handle := length (timers s) in
  let s1 := snd (startProgressUpdates n NoToken s) in
  let s2 := snd (stopProgressUpdates (mkProgressData handle NoToken) success s1) in
  sendProgressNotification NoToken p t m s = (Normal tt, s)
  /\ wire (snd (handler toolExists executeTool request s)) = wire s
  /\ (wire s1 = wire s
      /\ isProcessing s1 = true
      /\ currentOperationName s1 = n
      /\ timers s1 = timers s ++ [mkInterval n NoToken 0 0 false])
  /\ interval_elapses handle s1 = (Normal tt, s1)
  /\ (wire s2 = wire s
      /\ isProcessing s2 = false
      /\ timers s2 = timers s ++ [mkInterval n NoToken 0 0 true]).
Proof.
  intros request handle s1 s2.
  assert (E1 : s1 = started n NoToken s)
    by (unfold s1; now rewrite startProgressUpdates_started).
  assert (E2 : s2 = stopped (mkProgressData handle NoToken) success s1)
    by (unfold s2; now rewrite stopProgressUpdates_stopped).
  destruct (started_fields n NoToken s) as (S1 & S2 & S3 & S4 & S5 & S6).
  rewrite <- E1 in S1, S2, S3, S4, S5, S6. cbn [truthy] in S5.
  rewrite app_nil_r in S5.
  destruct (stopped_fields (mkProgressData handle NoToken) success s1)
    as (T1 & T2 & T3 & T4 & T5 & T6).
  rewrite <- E2 in T1, T2, T3, T4, T5, T6. cbn [dataToken truthy interval] in T4, T5.
  rewrite app_nil_r in T5. unfold handle in T4. rewrite S4, alter_last in T4.
  split; [reflexivity |]. split.
  { destruct (toolExists n) eqn:Hex.
    - destruct (handler_registered toolExists executeTool request s Hex)
        as (s' & He & _ & _ & _ & _ & H5 & _).
      rewrite He. cbn [snd]. rewrite H5. unfold channel_trace.
      cbn [meta_progressToken request truthy]. apply app_nil_r.
    - now rewrite (handler_unregistered toolExists executeTool request s Hex). }
  split; [auto |]. split.
  { rewrite (interval_elapses_armed handle (mkInterval n NoToken 0 0 false) s1)
      by (unfold handle; rewrite ?S4; auto using lookup_last).
    unfold handle.
    now rewrite (called_back_silent (timers s) n NoToken 0 0 s1 S4 S1 eq_refl). }
  rewrite T5, T1, T4. auto.
Qed.

(** ** The status of an earlier invocation *)

(** C9.  The start of the dispatch of a registered operation empties
    [latestOutput] before it creates the interval, so what the handler
    returns, sends and leaves behind does not depend on the status an
    earlier invocation left there: the ticks are those computed from the
    empty status and the statuses of this execution. *)
Theorem status_is_reset toolExists executeTool request s previous :
  toolExists (name request) = true ->
  let stale := set_latestOutput previous s in
  latestOutput (snd (startProgressUpdates (name request)
                       (meta_progressToken request) stale)) = []
  /\ timers (snd (startProgressUpdates (name request)
                    (meta_progressToken request) stale))
     = timers stale
       ++ [mkInterval (name request) (meta_progressToken request) 0 0 false]
  /\ handler toolExists executeTool request stale
     = handler toolExists executeTool request s
  /\ wire (snd (handler toolExists executeTool request stale))
     = wire s ++ channel_trace (name request) (meta_progressToken request)
                   (execution_of executeTool request).
Proof.
  intros Hex stale.
  destruct (started_fields (name request) (meta_progressToken request) stale)
    as (_ & _ & S3 & S4 & _).
  rewrite startProgressUpdates_started. cbn [snd].
  split; [exact S3 |]. split; [exact S4 |].
  assert (Hh : handler toolExists executeTool request stale
               = handler toolExists executeTool request s).
  { unfold handler. rewrite Hex.
    assert (Hst : forall K : ProgressData -> M CallToolResult,
              bind (startProgressUpdates (name request) (meta_progressToken request))
                K stale
              = bind (startProgressUpdates (name request) (meta_progressToken request))
                  K s).
    { intros K. unfold bind. now rewrite !startProgressUpdates_started. }
    apply Hst. }
  split; [exact Hh |]. rewrite Hh.
  destruct (handler_registered toolExists executeTool request s Hex)
    as (s' & He & _ & _ & _ & _ & H5 & _).
  now rewrite He.
Qed.

Lemma status_is_reset_witness :
  Registry.toolExists (one_tool two_periods) (name cat_request) = true
  /\ handler (Registry.toolExists (one_tool two_periods))
       (Registry.executeTool (one_tool two_periods)) cat_request
       (set_latestOutput (lit "Video generated successfully!") initial)
     = handler (Registry.toolExists (one_tool two_periods))
         (Registry.executeTool (one_tool two_periods)) cat_request initial.
Proof.
  split; [reflexivity |].
  apply (status_is_reset (Registry.toolExists (one_tool two_periods))
           (Registry.executeTool (one_tool two_periods)) cat_request initial
           (lit "Video generated successfully!") eq_refl).
Defined.

(** ** Failures of the transport *)




Example dead_transport_changes_only_the_log :
  fst (handler (Registry.toolExists (one_tool two_periods))
         (Registry.executeTool (one_tool two_periods)) cat_request dead_transport)
  = fst (handler (Registry.toolExists (one_tool two_periods))
           (Registry.executeTool (one_tool two_periods)) cat_request initial)
  /\ length (List.filter (fun c => match c with LogError _ _ => true | _ => false end)
               (logged (snd (handler (Registry.toolExists (one_tool two_periods))
                               (Registry.executeTool (one_tool two_periods))
                               cat_request dead_transport))))
     = 4.
Proof. split; vm_compute; reflexivity. Qed.

(** ** Invocations in flight together *)

(** C5 as stated does not hold: with two invocations in flight, the stop of
    the first changes what a period of the interval of the second sends. *)
Lemma stopping_one_channel_silences_the_other :
  ~ (sent_by (Elapses 1) (snd (step (Stops first_channel true) both_running))
     = sent_by (Elapses 1) both_running).
Proof. vm_compute. discriminate. Qed.

(** C5 (amended).  Besides the registry, the invocations share the variables
    [isProcessing], [currentOperationName] and [latestOutput], which every
    start overwrites; each has an interval and a closure of its own, which
    the start and the stop of another invocation leave as they were.  The
    stop of one invocation leaves [latestOutput] unchanged as well, and it
    sets the shared [isProcessing] to false and the shared name to the empty
    string: at its next period another interval sends nothing and is
    cleared. *)
Theorem stop_and_the_other_channels s progressData success other env n tok :
  other <> interval progressData ->
  timers s !! other = Some env ->
  let s' := snd (stopProgressUpdates progressData success s) in
  let s'' := snd (interval_elapses other s') in
  let s0 := snd (startProgressUpdates n tok s) in
  (timers s0 !! other = Some env
   /\ isProcessing s0 = true
   /\ currentOperationName s0 = n
   /\ latestOutput s0 = [])
  /\ latestOutput s' = latestOutput s
  /\ length (timers s') = length (timers s)
  /\ timers s' !! other = Some env
  /\ isProcessing s' = false
  /\ currentOperationName s' = []
  /\ wire s'' = wire s'
  /\ timers s'' !! other = Some (mark_cleared env).
Proof.
  intros Hne Hl s' s'' s0.
  assert (E : s' = stopped progressData success s)
    by (unfold s'; now rewrite stopProgressUpdates_stopped).
  assert (E0 : s0 = started n tok s)
    by (unfold s0; now rewrite startProgressUpdates_started).
  destruct (started_fields n tok s) as (S1 & S2 & S3 & S4 & _).
  rewrite <- E0 in S1, S2, S3, S4.
  split.
  { split; [| auto]. rewrite S4. now apply lookup_app_l_Some. }
  clear S1 S2 S3 S4 E0.
  destruct (stopped_fields progressData success s)
    as (T1 & T2 & T3 & T4 & T5 & T6).
  rewrite <- E in T1, T2, T3, T4, T5, T6.
  assert (Hl' : timers s' !! other = Some env)
    by (rewrite T4, list_lookup_alter_ne; auto).
  split; [exact T3 |]. split; [now rewrite T4, length_alter |].
  split; [exact Hl' |]. split; [exact T1 |]. split; [exact T2 |].
  unfold s''. destruct (cleared env) eqn:Hc.
  - rewrite (interval_elapses_cleared other env s' Hl' Hc). cbn [snd].
    split; [reflexivity |]. rewrite Hl'. destruct env; cbn in Hc; now subst.
  - rewrite (interval_elapses_armed other env s' Hl' Hc). cbn [snd].
    unfold called_back. rewrite T1. cbn [andb negb wire timers set_timers].
    split; [reflexivity |]. now rewrite list_lookup_alter_eq, Hl'.
Qed.

Lemma stop_and_the_other_channels_witness :
  1 <> interval first_channel
  /\ timers both_running !! 1
     = Some (mkInterval (lit "generate_video_veo") (StringToken (lit "progress-b"))
               0 0 false)
  /\ isProcessing (snd (stopProgressUpdates first_channel true both_running))
     = false
  /\ timers (snd (interval_elapses 1
                    (snd (stopProgressUpdates first_channel true both_running))))
     !! 1
     = Some (mkInterval (lit "generate_video_veo") (StringToken (lit "progress-b"))
               0 0 true).
Proof.
  split; [discriminate | split; [reflexivity |]].
  destruct (stop_and_the_other_channels both_running first_channel true 1
              (mkInterval (lit "generate_video_veo")
                 (StringToken (lit "progress-b")) 0 0 false)
              (lit "generate_text") NoToken)
    as (_ & _ & _ & _ & H4 & _ & _ & H7).
  - discriminate.
  - reflexivity.
  - split; [exact H4 | exact H7].
Defined.

(** ** Registration in the demo server *)

(** C8 as stated does not hold for the array registry of the demo server:
    after a second registration under the same name, a call does not use the
    definition registered last. *)
Lemma second_registration_is_not_used :
  Demo.execute echo_twice [(lit "prompt", VString (lit "hi"))]
  = Normal (lit "hihi")
  /\ ~ (Demo.handleRequest
          (Demo.registerTool echo_twice (Demo.registerTool echo empty_demo))
          call_echo
        = Demo.CallReply (lit "hihi") false).
Proof. split; [reflexivity |]. vm_compute. discriminate. Qed.

Lemma find_snoc {A} (f : A -> bool) (l : list A) (x : A) :
  find f (l ++ [x])
  = match find f l with
    | Some y => Some y
    | None => if f x then Some x else None
    end.
Proof.
  induction l as [| a l IH]; cbn [app find]; [reflexivity |].
  now destruct (f a).
Qed.

(** C8 (amended).  [registerTool] never fails and never replaces: it appends
    the definition to the array, also when the name is registered already.
    A call then uses the definition registered first under the name, the
    new one only when the name was not registered, and the catalog lists
    every registration, in the order of the calls. *)
Theorem registration_appends (srv : Demo.Server) (tool : Demo.Tool) (n : jsstring) :
  Demo.toolRegistry (Demo.registerTool tool srv) = Demo.toolRegistry srv ++ [tool]
  /\ Demo.lookup_tool n (Demo.registerTool tool srv)
     = match Demo.lookup_tool n srv with
       | Some first => Some first
       | None => if Zod.jsstring_eqb (Demo.name tool) n then Some tool else None
       end
  /\ Demo.handleRequest (Demo.registerTool tool srv)
       (Demo.mkRequest (lit "tools/list") [] None)
     = Demo.ToolsReply
         (List.map Demo.listing_of (Demo.toolRegistry srv) ++ [Demo.listing_of tool]).
Proof.
  split; [reflexivity |]. split.
  - unfold Demo.lookup_tool, Demo.registerTool. cbn [Demo.toolRegistry].
    now rewrite find_snoc.
  - unfold Demo.handleRequest. cbn [Demo.method].
    replace (Zod.jsstring_eqb (lit "tools/list") (lit "tools/list")) with true
      by reflexivity.
    unfold Demo.registerTool. cbn [Demo.toolRegistry].
    now rewrite List.map_app.
Qed.

(** * Further properties of [src/index.ts] *)

(** ** What the handler leaves behind *)



(** X2.  On a registered operation the result is tagged [isError] exactly
    when the execution rejected, and a text the execution resolved with is
    returned unchanged. *)
Theorem dispatch_result_tag toolExists executeTool request s :
  toolExists (name request) = true ->
  exists r s',
    handler toolExists executeTool request s = (Normal r, s')
    /\ (isError r = true
        <-> exists error, settles (execution_of executeTool request) = Abrupt error)
    /\ (forall result,
          settles (execution_of executeTool request) = Normal result ->
          r = mkResult result false).
Proof.
  intros Hex.
  destruct (handler_registered toolExists executeTool request s Hex)
    as (s' & He & _).
  eexists _, s'. split; [exact He |].
  destruct (settles (execution_of executeTool request)) as [result | error];
    cbn [result_of isError]; split.
  - split; [discriminate | intros (e & H); discriminate H].
  - intros result' H. now injection H as ->.
  - split; eauto.
  - intros result' H. discriminate H.
Qed.

Lemma dispatch_result_tag_witness :
  Registry.toolExists (one_tool two_periods) (name cat_request) = true
  /\ exists r s',
       handler (Registry.toolExists (one_tool two_periods))
         (Registry.executeTool (one_tool two_periods)) cat_request initial
       = (Normal r, s')
       /\ isError r = false.
Proof.
  split; [reflexivity |].
  destruct (dispatch_result_tag (Registry.toolExists (one_tool two_periods))
              (Registry.executeTool (one_tool two_periods)) cat_request initial
              eq_refl) as (r & s' & He & Htag & _).
  exists r, s'. split; [exact He |].
  destruct (isError r) eqn:E; [| reflexivity].
  destruct Htag as [Htag _]. destruct (Htag eq_refl) as (e & H).
  vm_compute in H. discriminate H.
Defined.

(** ** Progress beyond the total *)

(** X3.  The progress of the intermediate ticks is not bounded by the total
    of the final tick: for an invocation of a registered operation with a
    truthy token, run from its start to its stop with no step of another
    invocation in between, when more than 100 periods elapse before the
    execution settles, the last intermediate tick carries the number of
    periods as its progress, and the final tick that follows it carries
    the smaller progress 100. *)
Theorem progress_exceeds_total toolExists executeTool request s :
  toolExists (name request) = true ->
  truthy (meta_progressToken request) = true ->
  100 < suspensions (execution_of executeTool request) ->
  let tok := meta_progressToken request in
  let run := execution_of executeTool request in
  let s' := snd (handler toolExists executeTool request s) in
  exists m,
    wire s' !! (length (wire s) + suspensions run)
    = Some (progress_notification tok (suspensions run) None m)
    /\ wire s' !! (length (wire s) + suspensions run + 1)
       = Some (progress_notification tok 100 (Some 100)
                 (final_message (name request) (succeeded (settles run)))).
Proof.
  intros Hex Htok Hn tok run s'.
  destruct (handler_registered toolExists executeTool request s Hex)
    as (s1 & He & _ & _ & _ & _ & H5 & _).
  assert (Hs : s' = s1) by (unfold s'; now rewrite He).
  fold run in Hn. fold tok run in H5. unfold channel_trace in H5.
  fold tok in Htok. rewrite Htok in H5.
  exists (tick_message (name request) (suspensions run - 1)
            (status_at (suspensions run) [] run)).
  rewrite Hs, H5. split.
  - rewrite lookup_app_r by lia. rewrite lookup_app_r by (cbn [length]; lia).
    cbn [length].
    replace (length (wire s) + suspensions run - length (wire s) - 1)
      with (suspensions run - 1) by lia.
    rewrite lookup_app_l by (rewrite ticks_length; lia).
    rewrite ticks_lookup by lia. cbn [Nat.add].
    now replace (S (suspensions run - 1)) with (suspensions run) by lia.
  - rewrite lookup_app_r by lia. rewrite lookup_app_r by (cbn [length]; lia).
    cbn [length].
    rewrite lookup_app_r by (rewrite ticks_length; lia).
    rewrite ticks_length.
    replace (length (wire s) + suspensions run + 1 - length (wire s) - 1
             - suspensions run) with 0 by lia.
    reflexivity.
Qed.

Lemma progress_exceeds_total_witness :
  Registry.toolExists (one_tool slow_backend) (name cat_request) = true
  /\ truthy (meta_progressToken cat_request) = true
  /\ 100 < suspensions (execution_of (Registry.executeTool (one_tool slow_backend))
                          cat_request)
  /\ exists m,
       wire (snd (handler (Registry.toolExists (one_tool slow_backend))
                    (Registry.executeTool (one_tool slow_backend))
                    cat_request initial)) !! 101
       = Some (progress_notification (meta_progressToken cat_request) 101 None m).
Proof.
  assert (H : 100 < suspensions (execution_of
                (Registry.executeTool (one_tool slow_backend)) cat_request))
    by (vm_compute; lia).
  split; [reflexivity | split; [reflexivity | split; [exact H |]]].
  destruct (progress_exceeds_total (Registry.toolExists (one_tool slow_backend))
              (Registry.executeTool (one_tool slow_backend)) cat_request initial
              eq_refl eq_refl H) as (m & H1 & _).
  exists m. exact H1.
Defined.

(** ** Tokens that count as absent *)

(** X4.  A token that is not truthy (the number 0, the empty string, or no
    token) silences the whole invocation: the handler puts nothing on the
    wire, whatever the operation does and whether it is registered or not. *)
Theorem falsy_token_is_silent toolExists executeTool request s :
  truthy (meta_progressToken request) = false ->
  wire (snd (handler toolExists executeTool request s)) = wire s.
Proof.
  intros Htok. destruct (toolExists (name request)) eqn:Hex.
  - destruct (handler_registered toolExists executeTool request s Hex)
      as (s' & He & _ & _ & _ & _ & H5 & _).
    rewrite He. cbn [snd]. rewrite H5. unfold channel_trace.
    rewrite Htok. apply app_nil_r.
  - now rewrite (handler_unregistered toolExists executeTool request s Hex).
Qed.

Lemma falsy_token_is_silent_witness :
  truthy (meta_progressToken zero_token_request) = false
  /\ wire (snd (handler (Registry.toolExists (one_tool two_periods))
                  (Registry.executeTool (one_tool two_periods))
                  zero_token_request dead_transport))
     = wire dead_transport.
Proof.
  split; [reflexivity |].
  apply (falsy_token_is_silent (Registry.toolExists (one_tool two_periods))
           (Registry.executeTool (one_tool two_periods)) zero_token_request
           dead_transport eq_refl).
Defined.

(** ** Interleavings *)

Lemma mark_cleared_cleared env : cleared env = true -> mark_cleared env = env.
Proof. destruct env; cbn; now intros ->. Qed.

Lemma called_back_timers handle env s j :
  j <> handle -> timers (called_back handle env s) !! j = timers s !! j.
Proof.
  intros Hne. unfold called_back.
  destruct (isProcessing s && truthy (intervalToken env)).
  - match goal with |- context [caught ?w ?n ?s0] =>
      destruct (caught_fields w n s0) as (_ & _ & _ & H4 & _) end.
    cbn [timers set_timers]. rewrite H4. cbn [timers set_timers].
    now rewrite !list_lookup_alter_ne by auto.
  - destruct (negb (isProcessing s)); [| reflexivity].
    cbn [timers set_timers]. now rewrite list_lookup_alter_ne by auto.
Qed.

Lemma step_keeps_cleared e s h env :
  timers s !! h = Some env -> cleared env = true ->
  timers (snd (step e s)) !! h = Some env.
Proof.
  intros Hl Hc. destruct e as [n tok | o | h' | pd ok]; cbn [step].
  - unfold bind. rewrite startProgressUpdates_started. cbn [snd ret].
    destruct (started_fields n tok s) as (_ & _ & _ & H4 & _).
    rewrite H4. now apply lookup_app_l_Some.
  - exact Hl.
  - destruct (timers s !! h') as [env' |] eqn:Hl'.
    + destruct (cleared env') eqn:Hc'.
      * now rewrite (interval_elapses_cleared h' env' s Hl' Hc').
      * rewrite (interval_elapses_armed h' env' s Hl' Hc'). cbn [snd].
        rewrite called_back_timers; [exact Hl |].
        intros ->. congruence.
    + now rewrite (interval_elapses_unknown h' s Hl').
  - rewrite stopProgressUpdates_stopped. cbn [snd].
    destruct (stopped_fields pd ok s) as (_ & _ & _ & H4 & _). rewrite H4.
    destruct (decide (interval pd = h)) as [-> | Hne].
    + rewrite list_lookup_alter_eq, Hl. cbn. now rewrite mark_cleared_cleared.
    + now rewrite list_lookup_alter_ne.
Qed.

(** X5.  Clearing is final: in every interleaving of starts, stops, status
    reports and periods, an interval that is cleared stays cleared with its
    closure unchanged, and its periods have no effect at all (the
    interleaving without them ends in the same state). *)
Theorem cleared_interval_is_inert es :
  forall s h env,
    timers s !! h = Some env -> cleared env = true ->
    timers (steps es s) !! h = Some env
    /\ steps es s = steps (without_periods_of h es) s.
Proof.
  induction es as [| e es IH]; intros s h env Hl Hc; [now split |].
  cbn [steps].
  pose proof (step_keeps_cleared e s h env Hl Hc) as Hl'.
  destruct (IH (snd (step e s)) h env Hl' Hc) as [I1 I2].
  split; [exact I1 |].
  unfold without_periods_of. cbn [List.filter].
  destruct e as [n tok | o | h' | pd ok]; cbn [negb steps]; try exact I2.
  destruct (Nat.eqb_spec h' h) as [-> | Hne]; cbn [negb steps].
  - cbn [step]. rewrite (interval_elapses_cleared h env s Hl Hc). cbn [snd].
    destruct (IH s h env Hl Hc) as [_ J]. exact J.
  - exact I2.
Qed.

Lemma cleared_interval_is_inert_witness :
  let s := snd (step (Stops first_channel true) both_running) in
  timers s !! 0
  = Some (mkInterval (lit "generate_image_nano_banana")
            (StringToken (lit "progress-a")) 0 0 true)
  /\ steps [Elapses 0; Reports (lit "working"); Elapses 0] s
     = steps [Reports (lit "working")] s.
Proof.
  intros s. split; [reflexivity |].
  destruct (cleared_interval_is_inert
              [Elapses 0; Reports (lit "working"); Elapses 0] s 0
              (mkInterval (lit "generate_image_nano_banana")
                 (StringToken (lit "progress-a")) 0 0 true)
              eq_refl eq_refl) as [_ H].
  exact H.
Defined.

(** X6.  The final tick names the operation started last, not the one whose
    channel is stopped: when a second invocation starts while the first is
    in flight, the stop of the first sends, under the first token, the
    phrase with the name of the second operation, and the stop of the second
    then sends the phrase with an empty name. *)
Theorem final_tick_names_the_latest_start s n1 t1 n2 t2 ok1 ok2 :
  truthy t1 = true ->
  truthy t2 = true ->
  let first := mkProgressData (length (timers s)) t1 in
  let second := mkProgressData (S (length (timers s))) t2 in
  let s2 := steps [Starts n1 t1; Starts n2 t2] s in
  let s3 := snd (step (Stops first ok1) s2) in
  sent_by (Stops first ok1) s2
  = [progress_notification t1 100 (Some 100) (final_message n2 ok1)]
  /\ sent_by (Stops second ok2) s3
     = [progress_notification t2 100 (Some 100) (final_message [] ok2)].
Proof.
  intros H1 H2 first second s2 s3.
  assert (E2 : s2 = started n2 t2 (started n1 t1 s)).
  { unfold s2. cbn [steps step]. unfold bind.
    now rewrite !startProgressUpdates_started. }
  assert (N2 : currentOperationName s2 = n2).
  { rewrite E2. now destruct (started_fields n2 t2 (started n1 t1 s))
      as (_ & -> & _). }
  assert (E3 : s3 = stopped first ok1 s2).
  { unfold s3. cbn [step]. now rewrite stopProgressUpdates_stopped. }
  destruct (stopped_fields first ok1 s2) as (_ & T2 & _ & _ & T5 & _).
  rewrite <- E3 in T2, T5. cbn [dataToken first] in T5. rewrite H1, N2 in T5.
  destruct (stopped_fields second ok2 s3) as (_ & _ & _ & _ & U5 & _).
  cbn [dataToken second] in U5. rewrite H2, T2 in U5.
  unfold sent_by. cbn [step]. rewrite !stopProgressUpdates_stopped. cbn [snd].
  rewrite <- E3, T5, U5, T5. split.
  - now rewrite drop_app_length.
  - now rewrite drop_app_length.
Qed.

Lemma final_tick_names_the_latest_start_witness :
  truthy (StringToken (lit "progress-a")) = true
  /\ truthy (StringToken (lit "progress-b")) = true
  /\ sent_by (Stops first_channel true) both_running
     = [progress_notification (StringToken (lit "progress-a")) 100 (Some 100)
          (final_message (lit "generate_video_veo") true)].
Proof.
  split; [reflexivity | split; [reflexivity |]].
  apply (final_tick_names_the_latest_start initial
           (lit "generate_image_nano_banana") (StringToken (lit "progress-a"))
           (lit "generate_video_veo") (StringToken (lit "progress-b"))
           true true eq_refl eq_refl).
Defined.

(** * Properties of [src/logger.ts] *)

(** X7.  At the level read from [LOG_LEVEL] (line 6, which nothing in the
    sources changes afterwards), [Logger.error] prints (one line, on
    [console.error]) exactly when the variable is unset or empty, in which
    case the level is [info], or is one of the four names [debug], [info],
    [warn], [error] as written; with any other value of [LOG_LEVEL], such
    as the same names in capitals, it prints nothing, and neither does any
    other method. *)
Theorem errors_need_a_known_level {A} chalk timestamp LOG_LEVEL message (args : A) :
  let logLevel := LoggerClass.initial_logLevel LOG_LEVEL in
  (LoggerClass.print chalk timestamp logLevel LoggerClass.error message args
   = [(LoggerClass.console_error,
       LoggerClass.formatMessage chalk timestamp LoggerClass.error message, args)]
   <-> LOG_LEVEL = None
       \/ LOG_LEVEL = Some []
       \/ exists l, LOG_LEVEL = Some l
                    /\ In l [lit "debug"; lit "info"; lit "warn"; lit "error"])
  /\ (forall l,
        LOG_LEVEL = Some l -> l <> [] ->
        ~ In l [lit "debug"; lit "info"; lit "warn"; lit "error"] ->
        forall level,
          LoggerClass.print chalk timestamp logLevel level message args = []).
Proof.
  intros logLevel. subst logLevel. split.
  - assert (P : forall key,
               LoggerClass.print chalk timestamp key LoggerClass.error message args
               = [(LoggerClass.console_error,
                   LoggerClass.formatMessage chalk timestamp LoggerClass.error
                     message, args)]
               <-> In key [lit "debug"; lit "info"; lit "warn"; lit "error"]).
    { intros key. rewrite <- shouldLog_error. unfold LoggerClass.print.
      destruct (LoggerClass.shouldLog key LoggerClass.error);
        split; easy. }
    rewrite P. destruct LOG_LEVEL as [[| u l] |]; cbn [LoggerClass.initial_logLevel nonempty].
    + split; [auto |]. intros _. cbn [In]. auto.
    + split.
      * intros H. right. right. eauto.
      * intros [H | [H | (l' & [= <-] & H)]]; [discriminate H ..| exact H].
    + split; [auto |]. intros _. cbn [In]. auto.
  - intros l -> Hl Hout level. unfold LoggerClass.print.
    destruct l as [| u l]; [congruence |].
    cbn [LoggerClass.initial_logLevel nonempty].
    now rewrite (shouldLog_unknown _ level Hout).
Qed.

Lemma errors_need_a_known_level_witness :
  lit "INFO" <> []
  /\ ~ In (lit "INFO") [lit "debug"; lit "info"; lit "warn"; lit "error"]
  /\ LoggerClass.print (fun _ m => m) (lit "2025-11-06T10:00:00.000Z")
       (LoggerClass.initial_logLevel (Some (lit "INFO")))
       LoggerClass.error (lit "Notification failed:") tt
     = [].
Proof.
  assert (N : lit "INFO" <> []) by (vm_compute; discriminate).
  assert (H : ~ In (lit "INFO") [lit "debug"; lit "info"; lit "warn"; lit "error"]).
  { cbn [In]. intros [H | [H | [H | [H | []]]]]; vm_compute in H; discriminate H. }
  split; [exact N |]. split; [exact H |].
  destruct (errors_need_a_known_level (fun _ m => m)
              (lit "2025-11-06T10:00:00.000Z") (Some (lit "INFO"))
              (lit "Notification failed:") tt) as [_ Hall].
  exact (Hall (lit "INFO") eq_refl N H LoggerClass.error).
Defined.

(** X8.  The filter of [shouldLog] is monotone in the severity of the
    message: at any log level, a message at least as severe as one that is
    logged is logged too; and after [setLevel(level)] every message at
    least as severe as [level] is logged. *)
Theorem shouldLog_is_monotone logLevel low high a b :
  LoggerClass.levels (LoggerClass.level_name low) = Some a ->
  LoggerClass.levels (LoggerClass.level_name high) = Some b ->
  a <= b ->
  (LoggerClass.shouldLog logLevel low = true ->
   LoggerClass.shouldLog logLevel high = true)
  /\ (LoggerClass.shouldLog (LoggerClass.setLevel low) high = true).
Proof.
  intros Ha Hb Hab. unfold LoggerClass.shouldLog, LoggerClass.setLevel.
  rewrite Ha, Hb. split.
  - destruct (LoggerClass.levels logLevel) as [t |]; [| discriminate].
    rewrite !Nat.leb_le. lia.
  - now apply Nat.leb_le.
Qed.

Lemma shouldLog_is_monotone_witness :
  LoggerClass.levels (LoggerClass.level_name LoggerClass.info) = Some 1
  /\ LoggerClass.levels (LoggerClass.level_name LoggerClass.warn) = Some 2
  /\ 1 <= 2
  /\ LoggerClass.shouldLog (LoggerClass.setLevel LoggerClass.info) LoggerClass.warn
     = true.
Proof.
  split; [reflexivity | split; [reflexivity | split; [lia |]]].
  apply (shouldLog_is_monotone (LoggerClass.initial_logLevel None)
           LoggerClass.info LoggerClass.warn 1 2 eq_refl eq_refl); lia.
Defined.

(** * Properties of the start-up and the health check *)



(** X10.  The health check of [index.ts] on the client's own [healthCheck]
    never reports the status [error] and never fails: the status is [healthy]
    when the request of the client succeeded and [unhealthy] when it failed,
    whatever it failed with. *)
Theorem health_is_healthy_or_unhealthy probe timestamp :
  let report := snd (Startup.healthCheck (Startup.client_healthCheck probe) timestamp) in
  Startup.status report = (if succeeded probe then lit "healthy" else lit "unhealthy")
  /\ Startup.status report <> lit "error"
  /\ Startup.health_error report = None
  /\ Startup.health_timestamp report = timestamp.
Proof.
  destruct probe as [[] | e]; cbn; repeat split; discriminate.
Qed.

(** * Properties of the image generation path *)

Lemma suspended_settles n rest :
  settles (ImageGeneration.suspended n rest) = settles rest.
Proof. induction n as [| n IH]; [reflexivity | exact IH]. Qed.

Lemma suspended_suspensions n rest :
  suspensions (ImageGeneration.suspended n rest) = n + suspensions rest.
Proof. induction n as [| n IH]; [reflexivity | cbn; now rewrite IH]. Qed.

(** X11.  [generateImage] rejects with nothing but a [GeminiAPIError], and
    the error it throws itself for a response without an image never
    reaches the caller with its own code: either the server answered with
    an error, and the message starts with [Gemini API error: ] and carries
    the status and the code of the server, or the message is
    [Image generation failed: ] followed by the message of the cause with
    the code [IMAGE_GENERATION_FAILED], also when the cause is the missing
    image.  When it resolves, the URL is built from the media id. *)
Theorem generateImage_outcomes posted clock :
  match GeminiClient.generateImage posted clock with
  | Normal (imageUrl, mediaId) =>
      mediaId = GeminiClient.generateMediaId clock
      /\ imageUrl = GeminiClient.storeImage mediaId clock
      /\ includes mediaId imageUrl
  | Abrupt (GeminiAPIError message code statusCode) =>
      (exists status m api_message,
         posted = GeminiClient.Failed
                    (GeminiClient.WithResponse m api_message code status)
         /\ statusCode = Some status
         /\ exists cause, message = lit "Gemini API error: " ++ cause)
      \/ (statusCode = None
          /\ code = Some (lit "IMAGE_GENERATION_FAILED")
          /\ exists cause, message = lit "Image generation failed: " ++ cause)
  | Abrupt _ => False
  end
  /\ (forall inlineData,
        posted = GeminiClient.Responded (GeminiClient.Part inlineData) ->
        (forall d t, inlineData = Some d -> GeminiClient.mimeType d = Some t ->
                     GeminiClient.startsWith (lit "image/") t = false) ->
        GeminiClient.generateImage posted clock
        = Abrupt (GeminiAPIError (lit "Image generation failed: No image generated")
                    (Some (lit "IMAGE_GENERATION_FAILED")) None)).
Proof.
  split.
  - unfold GeminiClient.generateImage, GeminiClient.attempt.
    destruct posted as [[m | [[[t |] d] |]] | [m am ac st | n m]];
      try (right; split; [reflexivity | split; [reflexivity | eauto]]).
    + cbn [GeminiClient.mimeType].
      destruct (GeminiClient.startsWith (lit "image/") t).
      * split; [reflexivity | split; [reflexivity |]].
        unfold GeminiClient.storeImage. apply includes_app_r, includes_app_l.
        exists [], []. now rewrite app_nil_r.
      * right. split; [reflexivity | split; [reflexivity | eauto]].
    + left. exists st, m, am. split; [reflexivity |].
      split; [reflexivity | eauto].
  - intros inlineData -> Hno.
    unfold GeminiClient.generateImage, GeminiClient.attempt.
    destruct inlineData as [[[t |] d] |]; try reflexivity.
    cbn [GeminiClient.mimeType].
    now rewrite (Hno (GeminiClient.mkInlineData (Some t) d) t eq_refl eq_refl).
Qed.

(** X12.  The code of a backend error does not reach the caller of
    [generate_image_nano_banana]: whatever the call of the client rejects
    with after any number of periods, [execute] pushes the status
    [Error: ] with the message of the cause and rejects with a
    [GeminiAPIError] without a code, so the text of the handler is the
    prefix, [Nano Banana image generation failed: ], the message of the
    cause and [ (undefined)]. *)
Theorem backend_codes_are_dropped
    toolExists executeTool request s backend parsed cause :
  toolExists (name request) = true ->
  execution_of executeTool request = ImageGeneration.execute backend parsed ->
  ImageGeneration.reply backend = Abrupt cause ->
  exists s',
    handler toolExists executeTool request s
    = (Normal (mkResult
                 (error_prefix (name request)
                  ++ lit "Nano Banana image generation failed: "
                  ++ message_or (lit "Unknown error") cause
                  ++ lit " (undefined)")
                 true), s')
    /\ latestOutput s' = lit "Error: " ++ message_or (lit "Unknown error") cause.
Proof.
  intros Hex Hrun Hreply.
  destruct (handler_registered toolExists executeTool request s Hex)
    as (s' & He & _ & _ & H3 & _).
  rewrite Hrun in He, H3. unfold ImageGeneration.execute in He, H3.
  rewrite Hreply in He, H3.
  cbn [settles last_output] in He, H3.
  rewrite suspended_settles in He. cbn [settles] in He.
  rewrite result_of_fault in He. cbn [errorMessage_of template] in He.
  exists s'. split.
  - rewrite He. repeat f_equal; now rewrite <- ?app_assoc.
  - rewrite H3. clear.
    induction (ImageGeneration.periods backend) as [| n IH]; [reflexivity | exact IH].
Qed.

Lemma backend_codes_are_dropped_witness :
  Registry.toolExists (one_tool (backend_of 1 quota_exceeded a_clock))
    (name cat_request) = true
  /\ ImageGeneration.reply (backend_of 1 quota_exceeded a_clock)
     = Abrupt (GeminiAPIError (lit "Gemini API error: Resource has been exhausted")
                 (Some (lit "429")) (Some 429%Z))
  /\ exists s',
       handler (Registry.toolExists (one_tool (backend_of 1 quota_exceeded a_clock)))
         (Registry.executeTool (one_tool (backend_of 1 quota_exceeded a_clock)))
         cat_request initial
       = (Normal (mkResult
                    (error_prefix (name cat_request)
                     ++ lit "Nano Banana image generation failed: "
                     ++ lit "Gemini API error: Resource has been exhausted"
                     ++ lit " (undefined)")
                    true), s').
Proof.
  split; [reflexivity | split; [reflexivity |]].
  destruct (backend_codes_are_dropped
              (Registry.toolExists (one_tool (backend_of 1 quota_exceeded a_clock)))
              (Registry.executeTool (one_tool (backend_of 1 quota_exceeded a_clock)))
              cat_request initial (backend_of 1 quota_exceeded a_clock)
              [(lit "prompt", VString (lit "a cat"));
               (lit "model", VString (lit "nano-banana"));
               (lit "aspectRatio", VString (lit "1:1"));
               (lit "quality", VString (lit "standard"));
               (lit "style", VString (lit "natural"))]
              (GeminiAPIError (lit "Gemini API error: Resource has been exhausted")
                 (Some (lit "429")) (Some 429%Z))
              eq_refl eq_refl eq_refl) as (s' & He & _).
  exists s'. exact He.
Defined.

(** X13.  In the prompt sent to the model a seed of 0 is dropped like an
    absent seed, although the schema allows it; any other integer seed adds
    the line [Seed: ] with its decimal digits at the end. *)
Theorem seed_zero_is_dropped prompt model aspectRatio quality style z :
  let with_seed v :=
    GeminiClient.buildImagePrompt
      (GeminiClient.mkImageParams prompt model aspectRatio quality style v) in
  with_seed (VNumber 0) = with_seed VUndefined
  /\ (z <> 0%Z ->
      with_seed (VNumber z)
      = with_seed VUndefined ++ [10%N] ++ lit "Seed: " ++ to_text (VNumber z)).
Proof.
  intros with_seed. split; [reflexivity |].
  intros Hz. unfold with_seed, GeminiClient.buildImagePrompt.
  cbn [GeminiClient.seed GeminiClient.prompt GeminiClient.style
       GeminiClient.aspectRatio GeminiClient.quality Demo.truthy_value].
  destruct (Z.eqb_spec z 0) as [-> | _]; [congruence |]. cbn [negb].
  now rewrite !app_nil_r, <- !app_assoc.
Qed.

(** The ticks [generate_image_nano_banana] gives rise to while the client
    waits: the phase of each period with the first status as excerpt. *)
Lemma ticks_while_waiting toolName tok rest n :
  forall k,
    ticks toolName tok k (lit "Preparing image generation request...")
      (ImageGeneration.suspended n rest)
    = List.map
        (fun i => progress_notification tok (S i) None
                    (nth (i mod 5) (progressMessages toolName) []
                     ++ status_marker
                     ++ lit "Preparing image generation request..."))
        (seq k n)
      ++ ticks toolName tok (k + n) (lit "Preparing image generation request...") rest.
Proof.
  induction n as [| n IH]; intros k.
  - cbn. now rewrite Nat.add_0_r.
  - cbn [ImageGeneration.suspended ticks seq List.map app]. rewrite IH.
    now replace (S k + n) with (k + S n) by lia.
Qed.

(** X14.  While [generate_image_nano_banana] waits for the client, every
    tick of its channel shows the status pushed before the call: for an
    invocation with a truthy token, run from its start to its stop with no
    step of another invocation in between, and a backend that answers after
    [n] periods, the handler sends the starting tick, then for each period
    [i < n] the phase message of index [i mod 5] followed by the marker and
    [Preparing image generation request...], then the final tick. *)
Theorem nano_banana_channel toolExists executeTool request s backend parsed :
  toolExists (name request) = true ->
  truthy (meta_progressToken request) = true ->
  execution_of executeTool request = ImageGeneration.execute backend parsed ->
  let tok := meta_progressToken request in
  wire (snd (handler toolExists executeTool request s))
  = wire s
    ++ [progress_notification tok 0 None (starting_message (name request))]
    ++ List.map
         (fun i => progress_notification tok (S i) None
                     (nth (i mod 5) (progressMessages (name request)) []
                      ++ status_marker
                      ++ lit "Preparing image generation request..."))
         (seq 0 (ImageGeneration.periods backend))
    ++ [progress_notification tok 100 (Some 100)
          (final_message (name request)
             (succeeded (ImageGeneration.reply backend)))].
Proof.
  intros Hex Htok Hrun tok.
  destruct (handler_registered toolExists executeTool request s Hex)
    as (s' & He & _ & _ & _ & _ & H5 & _).
  rewrite He. cbn [snd]. rewrite H5. unfold channel_trace. fold tok.
  unfold tok at 1. rewrite Htok, Hrun. unfold ImageGeneration.execute.
  cbn [ticks settles]. rewrite ticks_while_waiting, suspended_settles.
  do 3 f_equal.
  - destruct (ImageGeneration.reply backend) as [[url id] | e];
      cbn [ticks]; now rewrite app_nil_r.
  - destruct (ImageGeneration.reply backend) as [[url id] | e]; reflexivity.
Qed.

Lemma nano_banana_channel_witness :
  Registry.toolExists (one_tool two_periods) (name cat_request) = true
  /\ truthy (meta_progressToken cat_request) = true
  /\ length (wire (snd (handler (Registry.toolExists (one_tool two_periods))
                          (Registry.executeTool (one_tool two_periods))
                          cat_request initial)))
     = 4.
Proof.
  split; [reflexivity | split; [reflexivity |]].
  rewrite (nano_banana_channel (Registry.toolExists (one_tool two_periods))
             (Registry.executeTool (one_tool two_periods)) cat_request initial
             two_periods
             [(lit "prompt", VString (lit "a cat"));
              (lit "model", VString (lit "nano-banana"));
              (lit "aspectRatio", VString (lit "1:1"));
              (lit "quality", VString (lit "standard"));
              (lit "style", VString (lit "natural"))]
             eq_refl eq_refl eq_refl).
  reflexivity.
Defined.

(** * Properties of the schemas *)

Lemma parse_field_out f raw :
  snd (Zod.parse_field f raw) = []
  \/ exists v, snd (Zod.parse_field f raw) = [(Zod.key f, v)] /\ v <> VUndefined
  \/ snd (Zod.parse_field f raw) = [(Zod.key f, VUndefined)]
     /\ Zod.presence f = Zod.Default VUndefined.
Proof.
  unfold Zod.parse_field.
  destruct (Zod.property (Zod.key f) raw) eqn:Hp;
    try (right; eexists; left; split; [reflexivity | discriminate]).
  destruct (Zod.presence f) as [| | d]; [now left | now left |].
  destruct d; try (right; eexists; left; split; [reflexivity | discriminate]).
  right. exists VUndefined. now right.
Qed.

Lemma jsstring_eqb_refl k : Zod.jsstring_eqb k k = true.
Proof. unfold Zod.jsstring_eqb. now apply bool_decide_eq_true_2. Qed.

Lemma jsstring_eqb_neq k k' : k <> k' -> Zod.jsstring_eqb k k' = false.
Proof. intros H. unfold Zod.jsstring_eqb. now apply bool_decide_eq_false_2. Qed.

Lemma property_app_single k k' v rest :
  Zod.property k ([(k', v)] ++ rest)
  = if Zod.jsstring_eqb k k' then v else Zod.property k rest.
Proof. reflexivity. Qed.

(** A key that is not in the schema is not in the parsed object. *)
Lemma parsed_unknown_key schema raw k :
  ~ In k (List.map Zod.key schema) ->
  Zod.property k (snd (Zod.parse_fields schema raw)) = VUndefined.
Proof.
  induction schema as [| f schema IH]; intros Hk; [reflexivity |].
  cbn [Zod.parse_fields].
  destruct (Zod.parse_field f raw) as [i o] eqn:Hf.
  destruct (Zod.parse_fields schema raw) as [i' o'] eqn:Hrest.
  cbn [snd] in *. cbn [List.map In] in Hk.
  assert (Hne : k <> Zod.key f) by (intros ->; tauto).
  assert (IH' : Zod.property k o' = VUndefined) by (apply IH; tauto).
  destruct (parse_field_out f raw) as [Ho | (v & [[Ho _] | [Ho _]])];
    rewrite Hf in Ho; cbn [snd] in Ho; subst o;
    rewrite ?property_app_single, ?jsstring_eqb_neq by auto; exact IH'.
Qed.

(** The property of the parsed object under the key of a field is what the
    field put there. *)
Lemma parsed_property schema raw f :
  List.NoDup (List.map Zod.key schema) -> In f schema ->
  Zod.property (Zod.key f) (snd (Zod.parse_fields schema raw))
  = match snd (Zod.parse_field f raw) with
    | [(_, v)] => v
    | _ => VUndefined
    end.
Proof.
  induction schema as [| g schema IH]; intros Hnd Hin; [destruct Hin |].
  cbn [List.map] in Hnd. apply List.NoDup_cons_iff in Hnd as [Hg Hnd].
  cbn [Zod.parse_fields].
  destruct (Zod.parse_field g raw) as [i o] eqn:Hgf.
  destruct (Zod.parse_fields schema raw) as [i' o'] eqn:Hrest.
  cbn [snd] in *. destruct Hin as [-> | Hin].
  - pose proof (parsed_unknown_key schema raw (Zod.key f) Hg) as Hu.
    rewrite Hrest in Hu. cbn [snd] in Hu. rewrite Hgf. cbn [snd].
    destruct (parse_field_out f raw) as [Ho | (v & [[Ho _] | [Ho _]])];
      rewrite Hgf in Ho; cbn [snd] in Ho; subst o;
      rewrite ?property_app_single, ?jsstring_eqb_refl; auto.
  - assert (Hne : Zod.key f <> Zod.key g).
    { intros E. apply Hg. rewrite <- E. now apply in_map. }
    specialize (IH Hnd Hin).
    destruct (parse_field_out g raw) as [Ho | (v & [[Ho _] | [Ho _]])];
      rewrite Hgf in Ho; cbn [snd] in Ho; subst o;
      rewrite ?property_app_single, ?jsstring_eqb_neq by auto; exact IH.
Qed.

Lemma parse_fields_no_issue schema raw f :
  fst (Zod.parse_fields schema raw) = [] -> In f schema ->
  fst (Zod.parse_field f raw) = [].
Proof.
  intros Hnone Hin.
  destruct (fst (Zod.parse_field f raw)) eqn:E; [reflexivity |].
  exfalso. apply (parse_fields_issues schema raw f Hin); [| exact Hnone].
  rewrite E. discriminate.
Qed.

Lemma safeParse_inr schema raw parsed :
  Zod.safeParse schema raw = inr parsed ->
  Zod.parse_fields schema raw = ([], parsed).
Proof.
  unfold Zod.safeParse. destruct (Zod.parse_fields schema raw) as [[| i l] o];
    [now intros [= ->] | discriminate].
Qed.

(** Parsing again what a field produced. *)
Lemma parse_field_again schema raw f :
  well_formed schema -> In f schema ->
  fst (Zod.parse_fields schema raw) = [] ->
  Zod.parse_field f (snd (Zod.parse_fields schema raw))
  = ([], snd (Zod.parse_field f raw)).
Proof.
  intros [Hnd Hdef] Hin Hnone.
  pose proof (parse_fields_no_issue schema raw f Hnone Hin) as Hf.
  pose proof (parsed_property schema raw f Hnd Hin) as Hp.
  rewrite List.Forall_forall in Hdef. specialize (Hdef f Hin).
  unfold Zod.parse_field in *. rewrite Hp. clear Hp.
  destruct (Zod.property (Zod.key f) raw) eqn:Hraw.
  - destruct (Zod.presence f) as [| | d] eqn:Hpr; cbn [fst snd] in *;
      [discriminate | reflexivity |].
    destruct Hdef as [Hd Hcheck].
    destruct d; try congruence; now rewrite Hcheck.
  - cbn [fst snd] in *. now rewrite Hf.
  - cbn [fst snd] in *. now rewrite Hf.
  - cbn [fst snd] in *. now rewrite Hf.
  - cbn [fst snd] in *. now rewrite Hf.
  - cbn [fst snd] in *. now rewrite Hf.
Qed.

Lemma parse_fields_again schema raw :
  well_formed schema ->
  fst (Zod.parse_fields schema raw) = [] ->
  forall part,
    (forall f, In f part -> In f schema) ->
    Zod.parse_fields part (snd (Zod.parse_fields schema raw))
    = ([], snd (Zod.parse_fields part raw)).
Proof.
  intros Hwf Hnone part. induction part as [| f part IH]; intros Hsub;
    [reflexivity |].
  cbn [Zod.parse_fields].
  rewrite (parse_field_again schema raw f Hwf (Hsub f (or_introl eq_refl)) Hnone).
  rewrite IH by (intros g Hg; apply Hsub; now right).
  destruct (Zod.parse_field f raw) as [i o].
  destruct (Zod.parse_fields part raw) as [i' o']. reflexivity.
Qed.

(** X15.  Parsing is idempotent: for a schema with distinct keys whose
    defaults pass their own type, such as [ImageGenerationSchema] and
    [MediaManagementSchema], the arguments a successful parse returns parse
    again, to themselves. *)
Theorem parse_is_idempotent schema raw parsed :
  well_formed schema ->
  Zod.safeParse schema raw = inr parsed ->
  Zod.safeParse schema parsed = inr parsed.
Proof.
  intros Hwf Hparse. apply safeParse_inr in Hparse.
  pose proof (parse_fields_again schema raw Hwf) as H.
  rewrite Hparse in H. cbn [fst snd] in H.
  specialize (H eq_refl schema (fun f Hf => Hf)).
  rewrite Hparse in H. cbn [snd] in H.
  unfold Zod.safeParse. now rewrite H.
Qed.

Ltac distinct_keys :=
  repeat (apply List.NoDup_cons; [cbn [In]; intros H;
            repeat (destruct H as [H | H]; [vm_compute in H; discriminate H |]);
            exact H |]);
  apply List.NoDup_nil.

Lemma ImageGenerationSchema_well_formed : well_formed ImageGenerationSchema.
Proof.
  split.
  - cbn. distinct_keys.
  - repeat (apply List.Forall_cons;
              [cbn; try (split; [discriminate | reflexivity]); exact I |]).
    apply List.Forall_nil.
Qed.

Lemma MediaManagementSchema_well_formed : well_formed MediaManagementSchema.
Proof.
  split.
  - cbn. distinct_keys.
  - repeat (apply List.Forall_cons;
              [cbn; try (split; [discriminate | reflexivity]); exact I |]).
    apply List.Forall_nil.
Qed.

Lemma parse_is_idempotent_witness :
  well_formed ImageGenerationSchema
  /\ Zod.safeParse ImageGenerationSchema
       [(lit "prompt", VString (lit "a cat")); (lit "seed", VNumber 7);
        (lit "verbose", VBool true)]
     = inr [(lit "prompt", VString (lit "a cat"));
            (lit "model", VString (lit "nano-banana"));
            (lit "aspectRatio", VString (lit "1:1"));
            (lit "quality", VString (lit "standard"));
            (lit "style", VString (lit "natural"));
            (lit "seed", VNumber 7)]
  /\ Zod.safeParse ImageGenerationSchema
       [(lit "prompt", VString (lit "a cat"));
        (lit "model", VString (lit "nano-banana"));
        (lit "aspectRatio", VString (lit "1:1"));
        (lit "quality", VString (lit "standard"));
        (lit "style", VString (lit "natural"));
        (lit "seed", VNumber 7)]
     = inr [(lit "prompt", VString (lit "a cat"));
            (lit "model", VString (lit "nano-banana"));
            (lit "aspectRatio", VString (lit "1:1"));
            (lit "quality", VString (lit "standard"));
            (lit "style", VString (lit "natural"));
            (lit "seed", VNumber 7)].
Proof.
  split; [exact ImageGenerationSchema_well_formed | split; [reflexivity |]].
  apply (parse_is_idempotent ImageGenerationSchema
           [(lit "prompt", VString (lit "a cat")); (lit "seed", VNumber 7);
            (lit "verbose", VBool true)]).
  - exact ImageGenerationSchema_well_formed.
  - reflexivity.
Defined.

Lemma enum_field_sound k values d raw :
  In d values ->
  fst (Zod.parse_field (Zod.mkField k (Zod.ZEnum values) (Zod.Default (VString d))) raw)
  = [] ->
  exists v,
    produced (Zod.mkField k (Zod.ZEnum values) (Zod.Default (VString d))) raw
    = VString v
    /\ In v values
    /\ (Zod.property k raw = VUndefined -> v = d).
Proof.
  intros Hd. unfold produced, Zod.parse_field. cbn [Zod.key Zod.type Zod.presence].
  destruct (Zod.property k raw) as [| | b | z | s | o]; cbn [fst snd Zod.check];
    try discriminate.
  - intros _. exists d. auto.
  - destruct (existsb (Zod.jsstring_eqb s) values) eqn:He; [| discriminate].
    intros _. exists s. split; [reflexivity |]. split; [| discriminate].
    apply existsb_exists in He as (x & Hin & Heq).
    unfold Zod.jsstring_eqb in Heq. apply bool_decide_eq_true in Heq. now subst.
Qed.

Lemma image_field_in f : In f ImageGenerationSchema ->
  forall raw parsed,
    Zod.safeParse ImageGenerationSchema raw = inr parsed ->
    fst (Zod.parse_field f raw) = []
    /\ Zod.property (Zod.key f) parsed = produced f raw.
Proof.
  intros Hin raw parsed Hparse. apply safeParse_inr in Hparse.
  split.
  - apply (parse_fields_no_issue ImageGenerationSchema raw f); [| exact Hin].
    now rewrite Hparse.
  - pose proof (parsed_property ImageGenerationSchema raw f
                  (proj1 ImageGenerationSchema_well_formed) Hin) as H.
    now rewrite Hparse in H.
Qed.

(** X16.  What [execute] can rely on after [ImageGenerationSchema] accepted
    the arguments: the prompt is a string of 1 to 2000 code units; [model],
    [aspectRatio], [quality] and [style] are strings of their enumerations,
    the default when the caller gave none; the seed is absent or an integer
    from 0 to 4294967295; and no other key is left. *)
Theorem image_arguments_are_checked raw parsed :
  Zod.safeParse ImageGenerationSchema raw = inr parsed ->
  (exists p, Zod.property (lit "prompt") parsed = VString p
             /\ 1 <= length p <= 2000)
  /\ (exists v, Zod.property (lit "model") parsed = VString v
                /\ In v [lit "nano-banana"; lit "imagen3"; lit "imagen4"]
                /\ (Zod.property (lit "model") raw = VUndefined
                    -> v = lit "nano-banana"))
  /\ (exists v, Zod.property (lit "aspectRatio") parsed = VString v
                /\ In v [lit "1:1"; lit "16:9"; lit "4:3"; lit "3:2"; lit "2:3";
                         lit "3:4"; lit "9:16"; lit "21:9"]
                /\ (Zod.property (lit "aspectRatio") raw = VUndefined
                    -> v = lit "1:1"))
  /\ (exists v, Zod.property (lit "quality") parsed = VString v
                /\ In v [lit "standard"; lit "high"]
                /\ (Zod.property (lit "quality") raw = VUndefined
                    -> v = lit "standard"))
  /\ (exists v, Zod.property (lit "style") parsed = VString v
                /\ In v [lit "natural"; lit "artistic"; lit "photorealistic";
                         lit "cartoon"; lit "anime"]
                /\ (Zod.property (lit "style") raw = VUndefined
                    -> v = lit "natural"))
  /\ (Zod.property (lit "seed") parsed = VUndefined
      \/ exists z, Zod.property (lit "seed") parsed = VNumber z
                   /\ (0 <= z <= 4294967295)%Z)
  /\ (forall k, ~ In k (List.map Zod.key ImageGenerationSchema) ->
                Zod.property k parsed = VUndefined).
Proof.
  intros Hparse.
  assert (Hfield : forall f, In f ImageGenerationSchema ->
            fst (Zod.parse_field f raw) = []
            /\ Zod.property (Zod.key f) parsed = produced f raw)
    by (intros f Hin; now apply image_field_in).
  split; [| split; [| split; [| split; [| split; [| split]]]]].
  - destruct (Hfield _ (or_introl eq_refl)) as [Hi Hp].
    cbn [Zod.key] in Hp. rewrite Hp. clear Hp Hfield.
    unfold produced, Zod.parse_field in *. cbn [Zod.key Zod.type Zod.presence] in *.
    destruct (Zod.property (lit "prompt") raw) as [| | b | z | s | o];
      cbn [fst snd Zod.check Zod.below Zod.above] in *; try discriminate.
    exists s. split; [reflexivity |].
    destruct (Nat.ltb_spec (length s) 1); [discriminate |].
    destruct (Nat.ltb_spec 2000 (length s)); [discriminate |]. lia.
  - destruct (Hfield _ (or_intror (or_introl eq_refl))) as [Hi Hp].
    cbn [Zod.key] in Hp. rewrite Hp.
    apply enum_field_sound; [cbn; tauto | exact Hi].
  - destruct (Hfield _ (or_intror (or_intror (or_introl eq_refl)))) as [Hi Hp].
    cbn [Zod.key] in Hp. rewrite Hp.
    apply enum_field_sound; [cbn; tauto | exact Hi].
  - destruct (Hfield _ (or_intror (or_intror (or_intror (or_introl eq_refl)))))
      as [Hi Hp].
    cbn [Zod.key] in Hp. rewrite Hp.
    apply enum_field_sound; [cbn; tauto | exact Hi].
  - destruct (Hfield _ (or_intror (or_intror (or_intror (or_intror
                (or_introl eq_refl)))))) as [Hi Hp].
    cbn [Zod.key] in Hp. rewrite Hp.
    apply enum_field_sound; [cbn; tauto | exact Hi].
  - destruct (Hfield _ (or_intror (or_intror (or_intror (or_intror
                (or_intror (or_introl eq_refl))))))) as [Hi Hp].
    cbn [Zod.key] in Hp. rewrite Hp. clear Hp Hfield.
    unfold produced, Zod.parse_field in *. cbn [Zod.key Zod.type Zod.presence] in *.
    destruct (Zod.property (lit "seed") raw) as [| | b | z | s | o];
      cbn [fst snd Zod.check Zod.below Zod.above] in *; try discriminate.
    + now left.
    + right. exists z. split; [reflexivity |].
      destruct (Z.ltb_spec z 0); [discriminate |].
      destruct (Z.ltb_spec 4294967295 z); [discriminate |]. lia.
  - intros k Hk. apply safeParse_inr in Hparse.
    pose proof (parsed_unknown_key ImageGenerationSchema raw k Hk) as H.
    now rewrite Hparse in H.
Qed.

Lemma image_arguments_are_checked_witness :
  Zod.safeParse ImageGenerationSchema
    [(lit "prompt", VString (lit "a cat")); (lit "verbose", VBool true)]
  = inr [(lit "prompt", VString (lit "a cat"));
         (lit "model", VString (lit "nano-banana"));
         (lit "aspectRatio", VString (lit "1:1"));
         (lit "quality", VString (lit "standard"));
         (lit "style", VString (lit "natural"))]
  /\ Zod.property (lit "verbose")
       [(lit "prompt", VString (lit "a cat"));
        (lit "model", VString (lit "nano-banana"));
        (lit "aspectRatio", VString (lit "1:1"));
        (lit "quality", VString (lit "standard"));
        (lit "style", VString (lit "natural"))]
     = VUndefined.
Proof.
  split; [reflexivity |].
  destruct (image_arguments_are_checked
              [(lit "prompt", VString (lit "a cat")); (lit "verbose", VBool true)]
              [(lit "prompt", VString (lit "a cat"));
               (lit "model", VString (lit "nano-banana"));
               (lit "aspectRatio", VString (lit "1:1"));
               (lit "quality", VString (lit "standard"));
               (lit "style", VString (lit "natural"))]
              eq_refl) as (_ & _ & _ & _ & _ & _ & H).
  apply H. cbn [List.map In Zod.key ImageGenerationSchema].
  intros E. repeat (destruct E as [E | E]; [vm_compute in E; discriminate E |]).
  exact E.
Defined.

(** * Properties of the demo server *)

Lemma split_newline_cons s : exists l ls, DemoMain.split_newline s = l :: ls.
Proof.
  destruct s as [| u s]; cbn [DemoMain.split_newline]; [eauto |].
  destruct (u =? 10)%N; [eauto |].
  destruct (DemoMain.split_newline s); eauto.
Qed.

Lemma removelast_cons2 {A} (a b : A) l :
  List.removelast (a :: b :: l) = a :: List.removelast (b :: l).
Proof. reflexivity. Qed.

Lemma last_cons2 {A} (a b : A) l d :
  List.last (a :: b :: l) d = List.last (b :: l) d.
Proof. reflexivity. Qed.

Lemma removelast_app_cons {A} (l : list A) (m : A) ms :
  List.removelast (l ++ m :: ms) = l ++ List.removelast (m :: ms).
Proof. apply List.removelast_app. discriminate. Qed.

Lemma last_app_cons {A} (l : list A) (m : A) ms d :
  List.last (l ++ m :: ms) d = List.last (m :: ms) d.
Proof.
  induction l as [| a l IH]; [reflexivity |].
  cbn [app]. destruct (l ++ m :: ms) eqn:E; [now destruct l | exact IH].
Qed.

(** Splitting a concatenation: the lines of the first part but the last,
    then the lines of its last line followed by the second part. *)
Lemma split_newline_app x y :
  DemoMain.split_newline (x ++ y)
  = List.removelast (DemoMain.split_newline x)
    ++ DemoMain.split_newline (List.last (DemoMain.split_newline x) [] ++ y).
Proof.
  induction x as [| u x IH]; [reflexivity |].
  cbn [app DemoMain.split_newline].
  destruct (split_newline_cons x) as (l & ls & Hx).
  destruct (u =? 10)%N eqn:Hu.
  - rewrite IH, Hx. rewrite removelast_cons2, last_cons2. reflexivity.
  - rewrite IH, Hx. destruct ls as [| l' ls].
    + cbn [List.removelast List.last app]. cbn [DemoMain.split_newline]. rewrite Hu.
      destruct (split_newline_cons (l ++ y)) as (m & ms & Hm). now rewrite Hm.
    + rewrite !removelast_cons2, !last_cons2. reflexivity.
Qed.

Lemma no_newline_split s :
  ~ In 10%N s -> DemoMain.split_newline s = [s].
Proof.
  induction s as [| u s IH]; [reflexivity |]. intros Hn.
  cbn [DemoMain.split_newline].
  destruct (N.eqb_spec u 10) as [-> | _]; [exfalso; apply Hn; now left |].
  rewrite IH; [reflexivity |]. intros H. apply Hn. now right.
Qed.

Lemma last_split_no_newline s :
  ~ In 10%N (List.last (DemoMain.split_newline s) []).
Proof.
  induction s as [| u s IH]; [intros [] |].
  cbn [DemoMain.split_newline].
  destruct (split_newline_cons s) as (l & ls & Hx). rewrite Hx in *.
  destruct (N.eqb_spec u 10) as [-> | Hne].
  - now rewrite last_cons2.
  - destruct ls as [| l' ls].
    + cbn [List.last] in *. intros [H | H]; [congruence | now apply IH].
    + now rewrite !last_cons2 in *.
Qed.

Lemma to_parse_app a b :
  DemoMain.to_parse (a ++ b) = DemoMain.to_parse a ++ DemoMain.to_parse b.
Proof. unfold DemoMain.to_parse. now rewrite List.filter_app, List.map_app. Qed.

Lemma take_lines_app buffer c1 c2 :
  ~ In 10%N buffer ->
  DemoMain.take_lines buffer (c1 ++ c2)
  = (fst (DemoMain.take_lines buffer c1)
     ++ fst (DemoMain.take_lines (snd (DemoMain.take_lines buffer c1)) c2),
     snd (DemoMain.take_lines (snd (DemoMain.take_lines buffer c1)) c2)).
Proof.
  intros _. unfold DemoMain.take_lines. cbn [fst snd].
  rewrite app_assoc, split_newline_app.
  destruct (split_newline_cons
              (List.last (DemoMain.split_newline (buffer ++ c1)) [] ++ c2))
    as (m & ms & Hm).
  rewrite Hm. f_equal.
  - now rewrite removelast_app_cons.
  - now rewrite last_app_cons.
Qed.

Lemma on_data_as_one_chunk chunks :
  forall buffer,
    ~ In 10%N buffer ->
    DemoMain.on_data chunks buffer
    = (DemoMain.to_parse (fst (DemoMain.take_lines buffer (concat chunks))),
       snd (DemoMain.take_lines buffer (concat chunks))).
Proof.
  induction chunks as [| c chunks IH]; intros buffer Hb.
  - cbn [DemoMain.on_data concat]. unfold DemoMain.take_lines.
    rewrite app_nil_r, no_newline_split by exact Hb. reflexivity.
  - cbn [DemoMain.on_data concat]. rewrite take_lines_app by exact Hb.
    destruct (DemoMain.take_lines buffer c) as [lines buffer'] eqn:Ht.
    cbn [fst snd].
    assert (Hb' : ~ In 10%N buffer').
    { replace buffer' with (snd (DemoMain.take_lines buffer c))
        by now rewrite Ht.
      unfold DemoMain.take_lines. cbn [snd]. apply last_split_no_newline. }
    rewrite (IH buffer' Hb'). now rewrite to_parse_app.
Qed.

(** X17.  The framing of requests does not depend on how the input arrives
    in chunks: from the empty buffer, the lines handed to [JSON.parse] over
    all the chunks, in order, and the buffer left at the end are those of
    the whole input arriving as one chunk. *)
Theorem framing_ignores_chunking chunks :
  DemoMain.on_data chunks []
  = (DemoMain.to_parse (fst (DemoMain.take_lines [] (concat chunks))),
     snd (DemoMain.take_lines [] (concat chunks))).
Proof. apply on_data_as_one_chunk. intros []. Qed.

(** X18.  A request is handled only once its newline has arrived: as long
    as the chunks contain no newline nothing is handed to [JSON.parse] and
    the whole input stays in the buffer, which the handler of ['end'] does
    not read. *)
Theorem unterminated_input_is_not_handled chunks :
  ~ In 10%N (concat chunks) ->
  DemoMain.on_data chunks [] = ([], concat chunks).
Proof.
  intros Hn. rewrite on_data_as_one_chunk by (intros []).
  unfold DemoMain.take_lines. cbn [app]. now rewrite no_newline_split.
Qed.

Lemma unterminated_input_is_not_handled_witness :
  ~ In 10%N (concat [lit "tools/"; lit "list"])
  /\ DemoMain.on_data [lit "tools/"; lit "list"] []
     = ([], concat [lit "tools/"; lit "list"]).
Proof.
  assert (H : ~ In 10%N (concat [lit "tools/"; lit "list"])).
  { vm_compute. intros H.
    repeat (destruct H as [H | H]; [discriminate H |]). exact H. }
  split; [exact H |].
  apply (unterminated_input_is_not_handled _ H).
Defined.

(** X19.  In the catalog of the demo server a property is listed as
    required exactly when its [default] is not truthy: a property without a
    default, but also one whose default is 0, [false], [null] or the empty
    string, as the [offset] of [list_generated_media], whose default is 0. *)
Theorem falsy_defaults_are_required tool k :
  In k (Demo.required (Demo.listing_of tool))
  <-> exists p, In (k, p) (Demo.schema tool)
                /\ (Demo.default_value p = VUndefined
                    \/ Demo.default_value p = VNull
                    \/ Demo.default_value p = VBool false
                    \/ Demo.default_value p = VNumber 0
                    \/ Demo.default_value p = VString []).
Proof.
  unfold Demo.listing_of. cbn [Demo.required].
  rewrite in_map_iff. split.
  - intros ([k' p] & <- & Hin). apply filter_In in Hin as [Hin Hf].
    exists p. split; [exact Hin |]. cbn [snd fst] in *.
    destruct (Demo.default_value p) as [| | [|] | z | [| u v] | o];
      cbn in Hf; try discriminate; try (now auto 8).
    match goal with
    | |- context [VNumber ?x = VNumber _] =>
        destruct (Z.eqb_spec x 0%Z) as [E | E];
          [rewrite E; auto 8 | discriminate Hf]
    end.
  - intros (p & Hin & Hd). exists (k, p). split; [reflexivity |].
    apply filter_In. split; [exact Hin |]. cbn [snd].
    destruct Hd as [-> | [-> | [-> | [-> | ->]]]]; reflexivity.
Qed.

Example offset_is_listed_as_required :
  Demo.required
    (Demo.listing_of
       (Demo.mkTool (lit "list_generated_media")
          (lit "List all generated images and videos with metadata.")
          (lit "media-management") demo_list_schema (fun _ => Normal [])))
  = [lit "offset"].
Proof. reflexivity. Qed.

(** * Properties of the media library ([src/tools/media-management.ts]) *)

Lemma get_set k v st w :
  MediaManagement.get w (MediaManagement.set k v st)
  = if Zod.jsstring_eqb w k then Some v else MediaManagement.get w st.
Proof.
  induction st as [|[k' v'] st IH]; cbn [MediaManagement.set MediaManagement.get].
  - reflexivity.
  - destruct (Zod.jsstring_eqb k k') eqn:E; cbn [MediaManagement.get].
    + unfold Zod.jsstring_eqb in E. apply bool_decide_eq_true in E. subst k'.
      now destruct (Zod.jsstring_eqb w k).
    + destruct (Zod.jsstring_eqb w k') eqn:E'; [| exact IH].
      unfold Zod.jsstring_eqb in E'. apply bool_decide_eq_true in E'. subst k'.
      destruct (Zod.jsstring_eqb w k) eqn:E''; [| reflexivity].
      unfold Zod.jsstring_eqb in E''. apply bool_decide_eq_true in E''. subst w.
      now rewrite jsstring_eqb_refl in E.
Qed.

Lemma get_delete k st w :
  MediaManagement.get w (MediaManagement.delete k st)
  = if Zod.jsstring_eqb w k then None else MediaManagement.get w st.
Proof.
  unfold MediaManagement.delete.
  induction st as [|[k' v'] st IH]; cbn [List.filter MediaManagement.get fst].
  - now destruct (Zod.jsstring_eqb w k).
  - destruct (Zod.jsstring_eqb k k') eqn:E; cbn [negb MediaManagement.get].
    + rewrite IH. unfold Zod.jsstring_eqb in E. apply bool_decide_eq_true in E.
      subst k'. now destruct (Zod.jsstring_eqb w k).
    + rewrite IH. destruct (Zod.jsstring_eqb w k') eqn:E'; [| reflexivity].
      unfold Zod.jsstring_eqb in E'. apply bool_decide_eq_true in E'. subst k'.
      destruct (Zod.jsstring_eqb w k) eqn:E''; [| reflexivity].
      unfold Zod.jsstring_eqb in E''. apply bool_decide_eq_true in E''. subst w.
      now rewrite jsstring_eqb_refl in E.
Qed.

Lemma get_absent k (st : MediaManagement.Storage) :
  ~ In k (List.map fst st) -> MediaManagement.get k st = None.
Proof.
  induction st as [|[k' v'] st IH]; cbn [List.map fst In MediaManagement.get];
    [reflexivity |].
  intros H. rewrite jsstring_eqb_neq by (intros ->; apply H; now left).
  apply IH. intros H'. apply H. now right.
Qed.

Lemma delete_absent k (st : MediaManagement.Storage) :
  ~ In k (List.map fst st) -> MediaManagement.delete k st = st.
Proof.
  unfold MediaManagement.delete.
  induction st as [|[k' v'] st IH]; cbn [List.map fst In List.filter];
    [reflexivity |].
  intros H. rewrite jsstring_eqb_neq by (intros ->; apply H; now left).
  cbn [negb]. f_equal. apply IH. intros H'. apply H. now right.
Qed.

Lemma length_delete k (st : MediaManagement.Storage) :
  List.NoDup (List.map fst st) ->
  (if MediaManagement.has k st then 1 else 0)
  + length (MediaManagement.delete k st) = length st.
Proof.
  unfold MediaManagement.has.
  induction st as [|[k' v'] st IH]; cbn [List.map fst]; [reflexivity |].
  intros H. apply List.NoDup_cons_iff in H as [Hk H].
  cbn [MediaManagement.get]. unfold MediaManagement.delete.
  cbn [List.filter fst].
  destruct (Zod.jsstring_eqb k k') eqn:E; cbn [negb].
  - unfold Zod.jsstring_eqb in E. apply bool_decide_eq_true in E. subst k'.
    fold (MediaManagement.delete k st). now rewrite delete_absent.
  - fold (MediaManagement.delete k st). cbn [length]. specialize (IH H). lia.
Qed.

Lemma slice_nat {A} (a b : Z) (l : list A) :
  (0 <= a)%Z -> (a <= b)%Z ->
  MediaManagement.slice a b l
  = firstn (Z.to_nat b - Z.to_nat a) (skipn (Z.to_nat a) l).
Proof.
  intros Ha Hb. unfold MediaManagement.slice.
  destruct (Z.ltb_spec a 0); [lia |]. destruct (Z.ltb_spec b 0); [lia |].
  destruct (Z.le_gt_cases a (Z.of_nat (length l))) as [Hal | Hal].
  - rewrite (Z.min_l a) by lia.
    destruct (Z.le_gt_cases b (Z.of_nat (length l))) as [Hbl | Hbl].
    + rewrite (Z.min_l b) by lia. f_equal. lia.
    + rewrite (Z.min_r b) by lia.
      rewrite !firstn_all2; [reflexivity | |]; rewrite List.length_skipn; lia.
  - rewrite (Z.min_r a), (Z.min_r b) by lia.
    rewrite !skipn_all2 by lia. now rewrite !firstn_nil.
Qed.

Lemma slice_lookup {A} (a b : Z) (l : list A) (i : nat) :
  (0 <= a)%Z -> (a <= b)%Z ->
  MediaManagement.slice a b l !! i
  = if (Z.of_nat i <? b - a)%Z then l !! (Z.to_nat a + i) else None.
Proof.
  intros Ha Hb. rewrite slice_nat by assumption.
  destruct (Z.ltb_spec (Z.of_nat i) (b - a)).
  - rewrite lookup_take_lt by lia. now rewrite lookup_drop.
  - apply lookup_take_ge. lia.
Qed.

Lemma slice_nil {A} (a b : Z) (l : list A) :
  (0 <= a)%Z -> (a < b)%Z ->
  MediaManagement.slice a b l = [] <-> (Z.of_nat (length l) <= a)%Z.
Proof.
  intros Ha Hb. rewrite slice_nat by lia.
  rewrite <- List.length_zero_iff_nil, List.length_firstn, List.length_skipn.
  lia.
Qed.

Lemma page_bounds (args : MediaManagement.ManageArgs) :
  (0 <= MediaManagement.offset args)%Z ->
  (1 <= MediaManagement.limit args)%Z ->
  MediaManagement.page_start args = MediaManagement.offset args
  /\ MediaManagement.page_end args
     = (MediaManagement.offset args + MediaManagement.limit args)%Z.
Proof.
  intros Ho Hl. unfold MediaManagement.page_end, MediaManagement.page_start.
  destruct (Z.eqb_spec (MediaManagement.offset args) 0) as [-> |];
    destruct (Z.eqb_spec (MediaManagement.limit args) 0); try lia; now split.
Qed.

(** X20.  [delete_media] removes from the library exactly what it was asked
    to, and only when [confirmDelete] or [force] is set: afterwards an id is
    absent if one of the flags was set and the id is the one named (or none
    was named, the empty string counting as none); every other id gives the
    item it gave before. *)
Theorem delete_media_removes_what_was_named args st k :
  MediaManagement.get k (snd (MediaManagement.delete_media args st))
  = if (MediaManagement.confirmDelete args || MediaManagement.force args)
       && match MediaManagement.truthy_id args with
          | Some wanted => Zod.jsstring_eqb k wanted
          | None => true
          end
    then None
    else MediaManagement.get k st.
Proof.
  unfold MediaManagement.delete_media, MediaManagement.deletion.
  destruct (MediaManagement.confirmDelete args), (MediaManagement.force args);
    cbn [negb andb orb snd]; try reflexivity;
    (destruct (MediaManagement.truthy_id args) as [wanted |]; [| reflexivity];
     destruct (MediaManagement.get wanted st) eqn:Hg; cbn [snd];
     [ apply get_delete
     | destruct (Zod.jsstring_eqb k wanted) eqn:E; [| reflexivity];
       unfold Zod.jsstring_eqb in E; apply bool_decide_eq_true in E;
       now subst k ]).
Qed.

(** X21.  When a deletion is confirmed (or forced) on a library whose ids
    are distinct, the report adds up: the number given as "Files Deleted",
    the number of lines under "Deleted Items" and the number of entries that
    left the library are the same, and with "Remaining Files" they make the
    size the library had.  The call resolves also when the id named is not
    in the library: the count is then zero. *)
Theorem delete_media_report_adds_up args st :
  List.NoDup (List.map fst st) ->
  MediaManagement.confirmDelete args || MediaManagement.force args = true ->
  exists deletedItems,
    settles (fst (MediaManagement.delete_media args st))
    = Normal
        (MediaManagement.deletion_text (MediaManagement.deletedCount args st)
           deletedItems
           (length (snd (MediaManagement.delete_media args st))))
    /\ length deletedItems = MediaManagement.deletedCount args st
    /\ MediaManagement.deletedCount args st
       + length (snd (MediaManagement.delete_media args st))
       = length st.
Proof.
  intros Hnd Hflag.
  unfold MediaManagement.delete_media.
  replace (negb (MediaManagement.confirmDelete args)
           && negb (MediaManagement.force args)) with false
    by (destruct (MediaManagement.confirmDelete args),
                 (MediaManagement.force args); easy).
  unfold MediaManagement.deletion, MediaManagement.deletedCount.
  destruct (MediaManagement.truthy_id args) as [wanted |].
  - pose proof (length_delete wanted st Hnd) as Hlen.
    unfold MediaManagement.has in *.
    destruct (MediaManagement.get wanted st) as [item |];
      eexists; cbn [fst snd settles]; (split; [reflexivity |]);
      cbn [length]; split; [reflexivity | exact Hlen | reflexivity | lia].
  - eexists. cbn [fst snd settles]. split; [reflexivity |].
    unfold MediaManagement.values. rewrite !List.length_map. cbn [length].
    split; [reflexivity | lia].
Qed.

(** X22.  An uploaded reference image can be downloaded under the id the
    upload reports: after [upload_reference_image], the library gives the
    new item for the new id and what it gave before for every other id, and
    [download_media] with that id resolves with the entry of the new
    item. *)
Theorem upload_then_download megabytes uargs clock st margs :
  MediaManagement.mediaId margs = Some (MediaManagement.new_mediaId clock) ->
  let st' := snd (MediaManagement.upload uargs clock st) in
  let item := MediaManagement.new_item uargs clock in
  (forall w,
     MediaManagement.get w st'
     = if Zod.jsstring_eqb w (MediaManagement.new_mediaId clock)
       then Some item else MediaManagement.get w st)
  /\ MediaManagement.url item = MediaManagement.imageUrl uargs
  /\ settles (MediaManagement.download megabytes margs st')
     = Normal
         (MediaManagement.download_header [item]
          ++ MediaManagement.download_item megabytes 0 item
          ++ MediaManagement.download_footer).
Proof.
  intros Hid st' item. subst st' item. cbn [MediaManagement.upload snd].
  split; [intros w; apply get_set |]. split; [reflexivity |].
  unfold MediaManagement.download, MediaManagement.to_download.
  rewrite Hid.
  replace (nonempty (MediaManagement.new_mediaId clock)) with true
    by (unfold MediaManagement.new_mediaId;
        destruct (lit "ref_") eqn:E; [vm_compute in E; discriminate E
                                     | reflexivity]).
  rewrite get_set, jsstring_eqb_refl. cbn [settles].
  cbn [MediaManagement.download_items]. now rewrite app_nil_r.
Qed.

(** X23.  [download_media] rejects in one case only: a non-empty [mediaId]
    that is not in the library.  The error is then a [GeminiAPIError]
    without a code whose message names the id.  Without a [mediaId], or
    with the empty string, it resolves whatever the library holds. *)
Theorem download_rejects_unknown_ids_only megabytes args st error :
  settles (MediaManagement.download megabytes args st) = Abrupt error
  <-> exists wanted,
        MediaManagement.mediaId args = Some wanted
        /\ nonempty wanted = true
        /\ MediaManagement.get wanted st = None
        /\ error
           = GeminiAPIError
               (lit "Media download failed: "
                ++ lit "Media item with ID " ++ wanted ++ lit " not found")
               None None.
Proof.
  unfold MediaManagement.download, MediaManagement.to_download.
  cbn [settles]. split.
  - destruct (MediaManagement.mediaId args) as [wanted |]; [| discriminate].
    destruct (nonempty wanted) eqn:Hn; [| discriminate].
    destruct (MediaManagement.get wanted st) eqn:Hg; [discriminate |].
    cbn [settles message_or new_Error]. intros [= <-].
    exists wanted. now repeat split.
  - intros (wanted & -> & -> & -> & ->). reflexivity.
Qed.

(** X24.  [list_generated_media] pages through the library without gaps:
    for an offset of at least 0 and a limit of at least 1, entry [i] of the
    page is entry [offset + i] of the library for [i < limit] and there is
    no other entry, and the hint to "use offset [offset + limit]" is
    printed exactly when the page at that offset has an entry. *)
Theorem list_pages_follow_each_other action mediaId limit offset st i :
  (0 <= offset)%Z -> (1 <= limit)%Z ->
  let args := MediaManagement.mkManageArgs action mediaId limit offset in
  let next :=
    MediaManagement.mkManageArgs action mediaId limit (offset + limit) in
  MediaManagement.paginatedMedia args st !! i
  = (if (Z.of_nat i <? limit)%Z
     then MediaManagement.values st !! (Z.to_nat offset + i) else None)
  /\ (MediaManagement.more_hint args st
      = lit "*Use offset " ++ to_text (VNumber (offset + limit))
        ++ lit " to see more items*"
      \/ MediaManagement.more_hint args st = [])
  /\ (MediaManagement.more_hint args st = []
      <-> MediaManagement.paginatedMedia next st = []).
Proof.
  intros Ho Hl args next.
  destruct (page_bounds args) as [Hs He]; [exact Ho | exact Hl |].
  destruct (page_bounds next) as [Hs' He']; [cbn; lia | exact Hl |].
  cbn [MediaManagement.offset MediaManagement.limit args next] in Hs, He, Hs', He'.
  unfold MediaManagement.paginatedMedia, MediaManagement.more_hint.
  rewrite Hs, He, Hs', He'. split; [| split].
  - rewrite slice_lookup by lia.
    now replace (offset + limit - offset)%Z with limit by lia.
  - destruct (_ <? _)%Z; [now left | now right].
  - rewrite slice_nil by lia.
    destruct (Z.ltb_spec (offset + limit)
                (Z.of_nat (length (MediaManagement.values st)))).
    + split; [| lia]. intros H'.
      destruct (lit "*Use offset ") eqn:E;
        [vm_compute in E; discriminate E | discriminate H'].
    + split; [lia | reflexivity].
Qed.

(** X25.  An offset at or past the end of the library makes
    [list_generated_media] answer with the text of an empty library ("No
    media files found in the library"), whatever the library holds; for an
    offset of at least 0 and a limit of at least 1 the page is empty in that
    case only. *)
Theorem page_past_the_end_reads_empty toLocaleDateString megabytes args st :
  (0 <= MediaManagement.offset args)%Z ->
  (1 <= MediaManagement.limit args)%Z ->
  (MediaManagement.paginatedMedia args st = []
   <-> (Z.of_nat (length st) <= MediaManagement.offset args)%Z)
  /\ ((Z.of_nat (length st) <= MediaManagement.offset args)%Z ->
      settles (MediaManagement.list_media toLocaleDateString megabytes args st)
      = Normal MediaManagement.empty_text).
Proof.
  intros Ho Hl. destruct (page_bounds args Ho Hl) as [Hs He].
  assert (Hnil : MediaManagement.paginatedMedia args st = []
                 <-> (Z.of_nat (length st) <= MediaManagement.offset args)%Z).
  { unfold MediaManagement.paginatedMedia. rewrite Hs, He, slice_nil by lia.
    unfold MediaManagement.values. now rewrite List.length_map. }
  split; [exact Hnil |].
  intros Hlen. apply Hnil in Hlen.
  unfold MediaManagement.list_media. cbn [settles]. now rewrite Hlen.
Qed.

Lemma delete_media_report_adds_up_witness :
  exists deletedItems,
    settles (fst (MediaManagement.delete_media delete_everything one_reference))
    = Normal
        (MediaManagement.deletion_text
           (MediaManagement.deletedCount delete_everything one_reference)
           deletedItems
           (length
              (snd (MediaManagement.delete_media delete_everything
                      one_reference))))
    /\ length deletedItems
       = MediaManagement.deletedCount delete_everything one_reference
    /\ MediaManagement.deletedCount delete_everything one_reference
       + length
           (snd (MediaManagement.delete_media delete_everything one_reference))
       = length one_reference.
Proof.
  apply (delete_media_report_adds_up delete_everything one_reference).
  - apply List.NoDup_cons; [intros [] | apply List.NoDup_nil].
  - reflexivity.
Defined.

Lemma upload_then_download_witness :
  settles
    (MediaManagement.download (fun _ => lit "0.00") download_the_reference
       one_reference)
  = Normal
      (MediaManagement.download_header
         [MediaManagement.new_item a_reference_upload upload_clock]
       ++ MediaManagement.download_item (fun _ => lit "0.00") 0
            (MediaManagement.new_item a_reference_upload upload_clock)
       ++ MediaManagement.download_footer).
Proof.
  apply (upload_then_download (fun _ => lit "0.00") a_reference_upload
           upload_clock [] download_the_reference).
  reflexivity.
Defined.

Lemma list_pages_follow_each_other_witness :
  MediaManagement.paginatedMedia
    (MediaManagement.mkManageArgs (lit "list") None 1 0) one_reference !! 0
  = MediaManagement.values one_reference !! 0
  /\ MediaManagement.more_hint
       (MediaManagement.mkManageArgs (lit "list") None 1 0) one_reference
     = [].
Proof.
  destruct (list_pages_follow_each_other (lit "list") None 1 0 one_reference 0)
    as (Hpage & _ & Hhint); [lia | lia |].
  split; [exact Hpage |]. apply Hhint. reflexivity.
Defined.

Lemma page_past_the_end_reads_empty_witness :
  (0 <= MediaManagement.offset list_past_the_end)%Z
  /\ (1 <= MediaManagement.limit list_past_the_end)%Z
  /\ one_reference <> []
  /\ settles
       (MediaManagement.list_media (fun d => d) (fun _ => lit "0.00")
          list_past_the_end one_reference)
     = Normal MediaManagement.empty_text.
Proof.
  assert (Ho : (0 <= MediaManagement.offset list_past_the_end)%Z)
    by (cbn; lia).
  assert (Hl : (1 <= MediaManagement.limit list_past_the_end)%Z)
    by (cbn; lia).
  split; [exact Ho |]. split; [exact Hl |]. split; [discriminate |].
  apply (page_past_the_end_reads_empty (fun d => d) (fun _ => lit "0.00")
           list_past_the_end one_reference Ho Hl).
  cbn. lia.
Defined.

(** * Instances of the properties without a premise of their own *)


Lemma generateImage_outcomes_witness :
  GeminiClient.generateImage (GeminiClient.Responded (GeminiClient.Part None))
    a_clock
  = Abrupt (GeminiAPIError (lit "Image generation failed: No image generated")
              (Some (lit "IMAGE_GENERATION_FAILED")) None).
Proof.
  destruct (generateImage_outcomes
              (GeminiClient.Responded (GeminiClient.Part None)) a_clock)
    as [_ H].
  apply (H None); [reflexivity | intros d t [=]].
Defined.

Lemma seed_zero_is_dropped_witness :
  GeminiClient.buildImagePrompt
    (GeminiClient.mkImageParams (VString (lit "a cat")) (lit "nano-banana")
       (VString (lit "1:1")) (VString (lit "standard"))
       (VString (lit "natural")) (VNumber 7))
  = GeminiClient.buildImagePrompt
      (GeminiClient.mkImageParams (VString (lit "a cat")) (lit "nano-banana")
         (VString (lit "1:1")) (VString (lit "standard"))
         (VString (lit "natural")) VUndefined)
    ++ [10%N] ++ lit "Seed: " ++ to_text (VNumber 7).
Proof.
  apply (seed_zero_is_dropped (VString (lit "a cat")) (lit "nano-banana")
           (VString (lit "1:1")) (VString (lit "standard"))
           (VString (lit "natural")) 7).
  lia.
Defined.
